(** * react-rasa-hook: the [useRasa] hook of [src/main.tsx]

    A shallow embedding of the hook's event handlers, its [utter] callback,
    the click closures it attaches to quick replies and the classifier
    [getType], followed by the properties proved about them.

    Modelling conventions.
    - A TypeScript optional field [f?: T] is an [option T]: [Some v] when the
      object has the own property [f], [None] when it has not. The value
      of a property that is present has its declared type; the one
      property the hook itself can set to [undefined], [quick_replies], is
      an [option (option _)], [Some None] being the own property that
      holds [undefined].
    - The argument of the [bot_uttered] handler is what socket.io decoded:
      [None] is [null] or [undefined], and [others] lists the own keys of
      the object beside the declared ones.
    - The elements of [quick_replies] are the objects the types declare:
      each has its [payload], a string.
    - The history is an array of distinct objects: an array in which the
      application has put the same object twice is not represented. The
      assignments of lines 155-161, made in place on one object, then
      change one element of the array and no other.
    - The two [useState] cells and the two [useRef] cells are fields of a
      [World]; a handler is a computation in a state-and-exception monad
      over it.
    - React applies the queued [setHistory] updaters in call order before
      the next render, and a handler runs to completion, so each updater is
      applied at its call; the call is also recorded in the world's
      [trace], which keeps the program order of the observable effects
      (socket emissions, [setStatus], [setHistory]).
    - An exception ends the life of the hook: what React keeps of the
      pending state depends on the root, so that the result of a handler
      that throws is the exception and the trace of the calls made, and no
      state.
    - [uuidv4] belongs to the [uuid] package: it is a parameter, the
      stream of identifiers it returns, indexed by the number of calls made
      so far.
    - [console.log] and [console.error] calls are left out, and so is the
      cleanup of the effect ([socket.disconnect()]), which acts on the
      transport only. *)

From stdpp Require Import base list strings.
From Stdlib Require Import Lia.

Local Open Scope string_scope.
Local Open Scope list_scope.

(** ** Data model *)

Definition RASA_DEFAULT_SOCKET_PATH : string := "/socket.io".

(** [string | object]: what [utter] accepts and sends as [message]. *)
Inductive Utterance :=
| UString (s : string)
| UObject (fields : list (string * string)).

Record SocketIOUtterUser := {
  session_id : option string;
  message : Utterance
}.

Inductive ContentType := content_text | content_image.

(** The variables an [onClick] arrow function closes over: [q1.payload],
    [i1] and [response.id] (main.tsx, lines 147-171). *)
Record ClickClosure := {
  captured_payload : string;
  captured_i1 : nat;
  captured_id : string
}.

(** An element of [quick_replies]; [qr_clicked] is its field [clicked],
    renamed apart from the field [clicked] of the message. *)
Record QuickReply := {
  content_type : ContentType;
  title : string;
  payload : string;
  qr_clicked : option bool;
  onClick : option ClickClosure
}.

Record Attachment := { src : string }.

(** [Partial<SocketIOBotAttachment & SocketIOBotQuickReply & SocketIOBotText>] *)
Record SocketIOUtterBot := {
  attachment : option Attachment;
  quick_replies : option (option (list QuickReply));
  text : option Utterance;
  clicked : option bool;
  others : list string
}.

(** What the code can throw: the [TypeError] of the engine, and the
    [Error] of line 154 with its message. *)
Inductive Exception :=
| TypeError
| Error (message : string).

Module RasaMessageType.
Inductive t := attachment | text | quickReply | buttons | unknown | uploader.
End RasaMessageType.

Module RasaStatus.
Inductive t := connecting | connected | waitingForResponse | disconnected | error.
End RasaStatus.

(** [RasaMessage = SocketIOUtterBot & RasaMetaInformation] *)
Record RasaMessage := {
  utterBot :> SocketIOUtterBot;
  id : string;
  received : bool;
  type : RasaMessageType.t
}.

Inductive ClientEvent :=
| user_uttered (m : SocketIOUtterUser)
| session_request (sessionID : option string).

(** The socket returned by [io(rasaWebServerUrl, { path: rasaSocketPath })]. *)
Record Socket := { url : string; path : string }.

(** ** [getType] (main.tsx, lines 195-209) *)

Definition hasOwnProperty {A} (field : option A) : bool :=
  match field with Some _ => true | None => false end.

(** [message.hasOwnProperty] is looked up on the argument: on [null] and
    [undefined] the lookup throws, and an own key [hasOwnProperty] hides
    the method of [Object.prototype] behind a decoded value, which is not
    a function. *)
Definition getType (message : option SocketIOUtterBot)
  : Exception + RasaMessageType.t :=
  match message with
  | None => inl TypeError
  | Some message =>
      if bool_decide ("hasOwnProperty" ∈ others message) then inl TypeError
      else if hasOwnProperty (attachment message)
           then inr RasaMessageType.attachment
      else if hasOwnProperty (quick_replies message)
           then inr RasaMessageType.quickReply
      else if hasOwnProperty (text message) then inr RasaMessageType.text
      else inr RasaMessageType.unknown
  end.

(** ** The functions handed to [setHistory] *)

Inductive Updater :=
| Append (m : RasaMessage)                 (* history => [...history, m] *)
| ResolveClick (rid : string) (i1 : nat)   (* lines 151-164 *)
| RemoveById (rid : string)                (* lines 167-169 *)
| Replace (h : list RasaMessage).          (* new objects given by the application *)

Definition set_quick_replies (m : RasaMessage)
    (qs : option (option (list QuickReply))) : RasaMessage :=
  {| utterBot := {| attachment := attachment m; quick_replies := qs;
                    text := text m; clicked := clicked m; others := others m |};
     id := id m; received := received m; type := type m |}.

Definition set_clicked (m : RasaMessage) (c : option bool) : RasaMessage :=
  {| utterBot := {| attachment := attachment m; quick_replies := quick_replies m;
                    text := text m; clicked := c; others := others m |};
     id := id m; received := received m; type := type m |}.

(** [{ ...q2, clicked: i1 === i2 }] *)
Definition mark (i1 i2 : nat) (q2 : QuickReply) : QuickReply :=
  {| content_type := content_type q2; title := title q2; payload := payload q2;
     qr_clicked := Some (Nat.eqb i1 i2); onClick := onClick q2 |}.

(** The two assignments to [history[index]] of lines 155-161. The first
    one creates the property [quick_replies] when the message has none:
    [undefined?.map(...)] is [undefined]. *)
Definition resolve (i1 : nat) (m : RasaMessage) : RasaMessage :=
  set_clicked
    (set_quick_replies m (Some (imap (mark i1) <$> mjoin (quick_replies m))))
    (Some true).

(** [history.findIndex((v) => v.id === rid)]; [None] stands for [-1]. *)
Definition findIndex (rid : string) (history : list RasaMessage) : option nat :=
  fst <$> list_find (fun v => id v = rid) history.

Definition object_Object : string := "[object Object]".

Fixpoint join (sep : string) (l : list string) : string :=
  match l with
  | [] => ""
  | [x] => x
  | x :: rest => x +:+ sep +:+ join sep rest
  end.

(** The template literal of line 154: an object prints as
    [[object Object]] and an array as its elements joined by commas. *)
Definition not_found_message (history : list RasaMessage) : string :=
  "Coudln't find: " +:+ object_Object +:+ " in "
    +:+ join "," (map (fun _ => object_Object) history).

(** The updaters at a history. [ResolveClick] assigns to the object
    [history[index]] and returns the array it was given; the object occurs
    once in it, so that the array read afterwards is the one before with
    this element resolved. *)
Definition apply_updater (u : Updater) (history : list RasaMessage)
  : string + list RasaMessage :=
  match u with
  | Append m => inr (history ++ [m])
  | ResolveClick rid i1 =>
      match findIndex rid history with
      | None => inl (not_found_message history)
      | Some index => inr (alter (resolve i1) index history)
      end
  | RemoveById rid => inr (filter (fun r => id r <> rid) history)
  | Replace h => inr h
  end.

(** ** The world and the monad of handlers *)

Inductive Effect :=
| Emit (e : ClientEvent)
| SetStatus (s : RasaStatus.t)
| SetHistory (u : Updater).

Record World := {
  status : RasaStatus.t;
  history : list RasaMessage;
  socketRef : option Socket;
  sessionRef : option string;
  uuid_calls : nat;
  trace : list Effect
}.

Inductive Result (A : Type) :=
| Ok (a : A) (w : World)
| Throw (e : Exception) (t : list Effect).
Arguments Ok {A} a w.
Arguments Throw {A} e t.

Definition M (A : Type) : Type := World -> Result A.

#[export] Instance M_ret : MRet M := fun A a w => Ok a w.

#[export] Instance M_bind : MBind M := fun A B k c w =>
  match c w with
  | Ok a w' => k a w'
  | Throw e t => Throw e t
  end.

(** The calls made, whether the computation returned or threw. *)
Definition trace_of {A} (r : Result A) : list Effect :=
  match r with Ok _ w => trace w | Throw _ t => t end.

(** [throw e] or the value. *)
Definition lift {A} (r : Exception + A) : M A :=
  fun w => match r with
           | inl e => Throw e (trace w)
           | inr a => Ok a w
           end.

Definition with_status (s : RasaStatus.t) (w : World) : World :=
  {| status := s; history := history w; socketRef := socketRef w;
     sessionRef := sessionRef w; uuid_calls := uuid_calls w; trace := trace w |}.

Definition with_history (h : list RasaMessage) (w : World) : World :=
  {| status := status w; history := h; socketRef := socketRef w;
     sessionRef := sessionRef w; uuid_calls := uuid_calls w; trace := trace w |}.

Definition with_socketRef (s : option Socket) (w : World) : World :=
  {| status := status w; history := history w; socketRef := s;
     sessionRef := sessionRef w; uuid_calls := uuid_calls w; trace := trace w |}.

Definition with_sessionRef (s : option string) (w : World) : World :=
  {| status := status w; history := history w; socketRef := socketRef w;
     sessionRef := s; uuid_calls := uuid_calls w; trace := trace w |}.

Definition record (e : Effect) (w : World) : World :=
  {| status := status w; history := history w; socketRef := socketRef w;
     sessionRef := sessionRef w; uuid_calls := uuid_calls w;
     trace := trace w ++ [e] |}.

Definition tick (w : World) : World :=
  {| status := status w; history := history w; socketRef := socketRef w;
     sessionRef := sessionRef w; uuid_calls := S (uuid_calls w);
     trace := trace w |}.

(** [socket.emit(...)] on the socket of the enclosing effect. *)
Definition socket_emit (e : ClientEvent) : M unit :=
  fun w => Ok tt (record (Emit e) w).

(** [socketRef.current?.emit(...)] *)
Definition socketRef_emit (e : ClientEvent) : M unit :=
  fun w => match socketRef w with
           | Some _ => Ok tt (record (Emit e) w)
           | None => Ok tt w
           end.

Definition setStatus (s : RasaStatus.t) : M unit :=
  fun w => Ok tt (with_status s (record (SetStatus s) w)).

Definition setHistory (u : Updater) : M unit :=
  fun w => match apply_updater u (history w) with
           | inr h => Ok tt (with_history h (record (SetHistory u) w))
           | inl e => Throw (Error e) (trace w ++ [SetHistory u])
           end.

Definition read_sessionRef : M (option string) := fun w => Ok (sessionRef w) w.

Definition write_sessionRef (s : string) : M unit :=
  fun w => Ok tt (with_sessionRef (Some s) w).

(** [x || ""] on an optional string: [undefined] and [""] are falsy. *)
Definition or_empty (x : option string) : string :=
  match x with
  | Some s => if decide (s = "") then "" else s
  | None => ""
  end.

(** [if (x)] on an optional string. *)
Definition truthy (x : option string) : option string :=
  match x with
  | Some s => if decide (s = "") then None else Some s
  | None => None
  end.

(** ** The hook (main.tsx, lines 83-193) *)

(** [{ ...q1, clicked: false, onClick: () => {...} }] of lines 144-172;
    the arrow function is kept as the values it captures. *)
Definition wire (rid : string) (i1 : nat) (q1 : QuickReply) : QuickReply :=
  {| content_type := content_type q1; title := title q1; payload := payload q1;
     qr_clicked := Some false;
     onClick := Some {| captured_payload := payload q1; captured_i1 := i1;
                        captured_id := rid |} |}.

(** [{ ...message }]: the own properties of the argument, none for [null]
    and [undefined]; the keys [id], [type] and [received] are those of the
    properties written after the spread. *)
Definition spread (message : option SocketIOUtterBot) : SocketIOUtterBot :=
  match message with
  | Some message =>
      {| attachment := attachment message;
         quick_replies := quick_replies message;
         text := text message; clicked := clicked message;
         others := filter (fun k => k ∉ ["id"; "type"; "received"])
                          (others message) |}
  | None =>
      {| attachment := None; quick_replies := None; text := None;
         clicked := None; others := [] |}
  end.

(** What the application and the transport can do to a mounted hook. *)
Inductive Action :=
| CallUtter (message : Utterance)
| CallOnClick (c : ClickClosure)
| CallSetHistory (h : list RasaMessage)
| OnConnect
| OnSessionConfirm (sessionID : string)
| OnBotUttered (message : option SocketIOUtterBot)
| OnDisconnect (reason : string)
| OnError (e : string).

Definition is_session_confirm (a : Action) : bool :=
  match a with OnSessionConfirm _ => true | _ => false end.

(** The events the transport delivers, as opposed to calls of the
    application. *)
Definition is_transport (a : Action) : bool :=
  match a with
  | CallUtter _ | CallOnClick _ | CallSetHistory _ => false
  | _ => true
  end.

Section useRasa.

Variable uuidv4 : nat -> string.
Variables rasaWebServerUrl rasaSocketPath : string.
Variable sendOnConnect : option string.

Definition uuidv4_call : M string :=
  fun w => Ok (uuidv4 (uuid_calls w)) (tick w).

(** Lines 98-117. The object appended to the history is built, and its
    [uuidv4()] evaluated, when the updater runs. *)
Definition utter (message : Utterance) : M unit :=
  current ← read_sessionRef;
  let socketIOMessage :=
    {| session_id := Some (or_empty current); message := message |} in
  socketRef_emit (user_uttered socketIOMessage);;
  setStatus RasaStatus.waitingForResponse;;
  fresh ← uuidv4_call;
  setHistory (Append
    {| utterBot := {| attachment := None; quick_replies := None;
                      text := Some message; clicked := None; others := [] |};
       id := fresh; received := false; type := RasaMessageType.text |}).

(** The state of the first render: [useState] initial values, empty refs. *)
Definition initial_world : World :=
  {| status := RasaStatus.disconnected; history := []; socketRef := None;
     sessionRef := None; uuid_calls := 0; trace := [] |}.

(** Lines 119-123: the body of the effect before the handlers are
    registered. *)
Definition mount : M unit :=
  fun w =>
    setStatus RasaStatus.connecting
      (with_socketRef
         (Some {| url := rasaWebServerUrl; path := rasaSocketPath |}) w).

(** Lines 125-129. *)
Definition on_connect : M unit :=
  setStatus RasaStatus.connected;;
  current ← read_sessionRef;
  socket_emit (session_request current).

(** Lines 130-134. *)
Definition on_session_confirm (sessionID : string) : M unit :=
  write_sessionRef sessionID;;
  match truthy sendOnConnect with
  | Some m => utter (UString m)
  | None => mret tt
  end.

(** Lines 135-177. [if (response.quick_replies)] holds of an array and
    fails of [undefined]. *)
Definition on_bot_uttered (message : option SocketIOUtterBot) : M unit :=
  messageType ← lift (getType message);
  fresh ← uuidv4_call;
  let response :=
    {| utterBot := spread message; id := fresh; type := messageType;
       received := true |} in
  let response :=
    match mjoin (quick_replies response) with
    | Some qs =>
        set_quick_replies response (Some (Some (imap (wire (id response)) qs)))
    | None => response
    end in
  setHistory (Append response);;
  setStatus RasaStatus.connected.

(** Lines 147-171: the body of an [onClick] arrow function. *)
Definition on_click (c : ClickClosure) : M unit :=
  utter (UString (captured_payload c));;
  if String.prefix "/" (captured_payload c)
  then setHistory (ResolveClick (captured_id c) (captured_i1 c))
  else setHistory (RemoveById (captured_id c)).

(** Lines 178-181. *)
Definition on_disconnect (reason : string) : M unit :=
  setStatus RasaStatus.disconnected.

(** Lines 182-185. *)
Definition on_error (e : string) : M unit :=
  setStatus RasaStatus.error.

Definition handle (a : Action) : M unit :=
  match a with
  | CallUtter message => utter message
  | CallOnClick c => on_click c
  | CallSetHistory h => setHistory (Replace h)
  | OnConnect => on_connect
  | OnSessionConfirm sessionID => on_session_confirm sessionID
  | OnBotUttered message => on_bot_uttered message
  | OnDisconnect reason => on_disconnect reason
  | OnError e => on_error e
  end.

(** Actions are handled one after the other; an exception ends the run. *)
Fixpoint run (actions : list Action) : M unit :=
  match actions with
  | [] => mret tt
  | a :: rest => handle a;; run rest
  end.

End useRasa.

(** ** Observations on a trace *)

Definition emitted (t : list Effect) : list ClientEvent :=
  omap (fun e => match e with Emit ev => Some ev | _ => None end) t.

Definition uttered (t : list Effect) : list SocketIOUtterUser :=
  omap (fun e => match e with Emit (user_uttered m) => Some m | _ => None end) t.

(** The messages appended to the history, in the order of the calls. *)
Definition appended (t : list Effect) : list RasaMessage :=
  omap (fun e => match e with SetHistory (Append m) => Some m | _ => None end) t.

(** The message a call [utter(message)] adds when [uuidv4()] returns [rid]. *)
Definition user_text (rid : string) (message : Utterance) : RasaMessage :=
  {| utterBot := {| attachment := None; quick_replies := None;
                    text := Some message; clicked := None; others := [] |};
     id := rid; received := false; type := RasaMessageType.text |}.

(** The options of a message, none when reading [quick_replies] gives
    [undefined]. *)
Definition options (m : RasaMessage) : list QuickReply :=
  default [] (mjoin (quick_replies m)).

Definition is_clicked (q : QuickReply) : bool :=
  match qr_clicked q with Some true => true | _ => false end.

Definition clicked_count (m : RasaMessage) : nat :=
  length (filter (fun q => is_clicked q = true) (options m)).

(** The first message of the history with identifier [rid], the one
    [findIndex] designates. *)
Definition lookup_id (rid : string) (h : list RasaMessage) : option RasaMessage :=
  snd <$> list_find (fun v => id v = rid) h.

(** ** Sample values *)

Fixpoint sample_uuidv4 (n : nat) : string :=
  match n with
  | 0 => "u"
  | S k => String (Ascii.ascii_of_nat 117) (sample_uuidv4 k)
  end.

Definition sample_socket : Socket :=
  {| url := "http://localhost:3000"; path := RASA_DEFAULT_SOCKET_PATH |}.

Definition sample_option (p : string) : QuickReply :=
  {| content_type := content_text; title := p; payload := p;
     qr_clicked := None; onClick := None |}.

Definition sample_bot_message : SocketIOUtterBot :=
  {| attachment := None;
     quick_replies :=
       Some (Some [sample_option "/yes"; sample_option "/no";
                   sample_option "no thanks"]);
     text := Some (UString "Continue?"); clicked := None; others := [] |}.

Definition mounted_world : World :=
  {| status := RasaStatus.connecting; history := []; socketRef := Some sample_socket;
     sessionRef := None; uuid_calls := 0; trace := [SetStatus RasaStatus.connecting] |}.

(** The message [on_bot_uttered] appends for [sample_bot_message] when
    [uuidv4()] returns ["u"]. *)
Definition sample_group : RasaMessage :=
  {| utterBot :=
       {| attachment := None;
          quick_replies :=
            Some (Some [wire "u" 0 (sample_option "/yes");
                        wire "u" 1 (sample_option "/no");
                        wire "u" 2 (sample_option "no thanks")]);
          text := Some (UString "Continue?"); clicked := None; others := [] |};
     id := "u"; received := true; type := RasaMessageType.quickReply |}.

Definition sample_click (i1 : nat) (p : string) : ClickClosure :=
  {| captured_payload := p; captured_i1 := i1; captured_id := "u" |}.

(** [mounted_world] after the bot has sent [sample_bot_message]. *)
Definition asked_world : World :=
  {| status := RasaStatus.connected; history := [sample_group];
     socketRef := Some sample_socket; sessionRef := None; uuid_calls := 1;
     trace := [SetStatus RasaStatus.connecting; SetHistory (Append sample_group);
               SetStatus RasaStatus.connected] |}.

(** [asked_world] after a click on the option ["/yes"]. *)
Definition answered_world : World :=
  {| status := RasaStatus.waitingForResponse;
     history := [resolve 0 sample_group; user_text "uu" (UString "/yes")];
     socketRef := Some sample_socket; sessionRef := None; uuid_calls := 2;
     trace := trace asked_world
              ++ [Emit (user_uttered {| session_id := Some ""; message := UString "/yes" |});
                  SetStatus RasaStatus.waitingForResponse;
                  SetHistory (Append (user_text "uu" (UString "/yes")));
                  SetHistory (ResolveClick "u" 0)] |}.

(** [p] holds of an effect that is followed, later in the trace, by an
    effect of which [q] holds. *)
Fixpoint happens_before (p q : Effect -> bool) (t : list Effect) : bool :=
  match t with
  | [] => false
  | e :: rest => (p e && existsb q rest) || happens_before p q rest
  end.

Definition is_append (e : Effect) : bool :=
  match e with SetHistory (Append _) => true | _ => false end.

Definition is_user_uttered (e : Effect) : bool :=
  match e with Emit (user_uttered _) => true | _ => false end.

(** The options of a message carry the closures [on_bot_uttered] built
    for them. *)
Definition wired (m : RasaMessage) : Prop :=
  forall i q, options m !! i = Some q ->
    onClick q = Some {| captured_payload := payload q; captured_i1 := i;
                        captured_id := id m |}.

(** The closures of the options of [m]. *)
Definition closure_of (m : RasaMessage) (c : ClickClosure) : Prop :=
  exists i q, options m !! i = Some q /\ onClick q = Some c.

(** A quick-reply group a click has resolved. *)
Definition resolved (m : RasaMessage) : Prop :=
  clicked m = Some true /\ clicked_count m = 1.

(** [m'] is [m] as a click on its option [i] leaves it: the group is
    marked clicked, option [j] is marked clicked exactly when [j] is [i],
    and everything else, the closures included, is as it was. *)
Definition resolved_by_click (i : nat) (m m' : RasaMessage) : Prop :=
  id m' = id m
  /\ received m' = received m
  /\ type m' = type m
  /\ attachment m' = attachment m
  /\ text m' = text m
  /\ others m' = others m
  /\ clicked m' = Some true
  /\ hasOwnProperty (quick_replies m') = true
  /\ length (options m') = length (options m)
  /\ forall j q,
       options m !! j = Some q ->
       exists q',
         options m' !! j = Some q'
         /\ content_type q' = content_type q
         /\ title q' = title q
         /\ payload q' = payload q
         /\ onClick q' = onClick q
         /\ qr_clicked q' = Some (Nat.eqb i j).

(** [said] is the entry [utter(message)] appends when [uuidv4()] returns
    [rid]: a text message of the user and nothing more. *)
Definition text_entry (rid : string) (message : Utterance) (said : RasaMessage)
  : Prop :=
  id said = rid
  /\ received said = false
  /\ type said = RasaMessageType.text
  /\ text said = Some message
  /\ attachment said = None
  /\ quick_replies said = None
  /\ clicked said = None
  /\ others said = [].

(** The group [rid] has [n] options wherever it is in the history, and
    no identifier still to come is [rid]. *)
Definition group_inv (uuidv4 : nat -> string) (rid : string) (n : nat)
    (w : World) : Prop :=
  (forall m1, lookup_id rid (history w) = Some m1 -> length (options m1) = n)
  /\ (forall k, uuid_calls w <= k -> uuidv4 k <> rid).

(** What the handlers maintain as long as the application does not
    replace the history itself: every message carries the closures built
    for it, every identifier is one [uuidv4] has returned, and no
    identifier occurs twice. *)
Definition ids_inv (uuidv4 : nat -> string) (h : list RasaMessage) (n : nat) : Prop :=
  Forall wired h
  /\ Forall (fun x => exists k, k < n /\ id x = uuidv4 k) h
  /\ NoDup (id <$> h).

Definition hook_inv (uuidv4 : nat -> string) (w : World) : Prop :=
  ids_inv uuidv4 (history w) (uuid_calls w).

Definition is_set_history (a : Action) : bool :=
  match a with CallSetHistory _ => true | _ => false end.

(** The texts of the messages of the user appended to the history, in
    the order of the calls. *)
Definition user_entries (t : list Effect) : list Utterance :=
  omap (fun e => match e with
                 | SetHistory (Append m) => if received m then None else text m
                 | _ => None
                 end) t.

(** The session reference after [actions], starting from [current]: the
    token of the last [session_confirm]. *)
Definition last_confirm (actions : list Action) (current : option string)
  : option string :=
  fold_left (fun s a => match a with OnSessionConfirm t => Some t | _ => s end)
            actions current.

(** An action that is not a [bot_uttered] event on which [getType]
    throws. *)
Definition is_classified (a : Action) : bool :=
  match a with
  | OnBotUttered message =>
      match getType message with inr _ => true | inl _ => false end
  | _ => true
  end.

Definition is_click (a : Action) : bool :=
  match a with CallOnClick _ => true | _ => false end.

(** [connect], [disconnect] and [error]. *)
Definition is_lifecycle (a : Action) : bool :=
  match a with OnConnect | OnDisconnect _ | OnError _ => true | _ => false end.

Definition lifecycle_status (a : Action) (current : RasaStatus.t) : RasaStatus.t :=
  match a with
  | OnConnect => RasaStatus.connected
  | OnDisconnect _ => RasaStatus.disconnected
  | OnError _ => RasaStatus.error
  | _ => current
  end.

(** ** Properties *)

Ltac unfold_M :=
  unfold mbind, M_bind, mret, M_ret, read_sessionRef, write_sessionRef,
    socketRef_emit, socket_emit, setStatus, setHistory, uuidv4_call in *.

Section Properties.

Variable uuidv4 : nat -> string.
Variable sendOnConnect : option string.

Lemma or_empty_Some (s : string) : or_empty (Some s) = s.
Proof. unfold or_empty. destruct (decide (s = "")); congruence. Qed.

(** What a call of [utter] does, field by field. *)
Lemma utter_ok (message : Utterance) (w : World) :
  exists w',
    utter uuidv4 message w = Ok tt w'
    /\ status w' = RasaStatus.waitingForResponse
    /\ history w' = history w ++ [user_text (uuidv4 (uuid_calls w)) message]
    /\ socketRef w' = socketRef w
    /\ sessionRef w' = sessionRef w
    /\ uuid_calls w' = S (uuid_calls w)
    /\ trace w' =
         trace w
         ++ match socketRef w with
            | Some _ =>
                [Emit (user_uttered
                         {| session_id := Some (or_empty (sessionRef w));
                            message := message |})]
            | None => []
            end
         ++ [SetStatus RasaStatus.waitingForResponse;
             SetHistory (Append (user_text (uuidv4 (uuid_calls w)) message))].
Proof.
  unfold utter. unfold_M. destruct w as [st h so se n t]; simpl.
  destruct so; simpl; eexists; (split; [reflexivity|]); simpl;
    rewrite <- ?app_assoc; repeat split; reflexivity.
Qed.

(** A click is a call of [utter] followed by one [setHistory]. *)
Lemma on_click_unfold (c : ClickClosure) (w w1 : World) :
  utter uuidv4 (UString (captured_payload c)) w = Ok tt w1 ->
  on_click uuidv4 c w =
    if String.prefix "/" (captured_payload c)
    then setHistory (ResolveClick (captured_id c) (captured_i1 c)) w1
    else setHistory (RemoveById (captured_id c)) w1.
Proof.
  intros Hu. unfold on_click.
  unfold mbind at 1. unfold M_bind. rewrite Hu.
  destruct (String.prefix "/" (captured_payload c)); reflexivity.
Qed.

Lemma id_resolve (i1 : nat) (m : RasaMessage) : id (resolve i1 m) = id m.
Proof. reflexivity. Qed.

Lemma options_resolve (i1 : nat) (m : RasaMessage) :
  options (resolve i1 m) = imap (mark i1) (options m).
Proof.
  unfold options, resolve. simpl. destruct (quick_replies m) as [[qs|]|]; reflexivity.
Qed.

Lemma clicked_resolve (i1 : nat) (m : RasaMessage) :
  clicked (resolve i1 m) = Some true.
Proof. reflexivity. Qed.

(** [findIndex] and the element it designates, after the in-place
    update of that element. *)
Lemma list_find_alter_resolve (rid : string) (i1 idx : nat)
      (h : list RasaMessage) (m : RasaMessage) :
  list_find (fun v => id v = rid) h = Some (idx, m) ->
  list_find (fun v => id v = rid) (alter (resolve i1) idx h)
    = Some (idx, resolve i1 m).
Proof.
  intros (Hl & Hid & Hleast)%list_find_Some.
  apply list_find_Some. split_and!.
  - rewrite list_lookup_alter_eq, Hl. reflexivity.
  - rewrite id_resolve. exact Hid.
  - intros j y Hj Hlt. rewrite list_lookup_alter_ne in Hj by lia.
    eauto.
Qed.

Lemma findIndex_Some (rid : string) (h : list RasaMessage) (idx : nat) (m : RasaMessage) :
  list_find (fun v => id v = rid) h = Some (idx, m) ->
  findIndex rid h = Some idx /\ lookup_id rid h = Some m.
Proof. intros H. unfold findIndex, lookup_id. rewrite H. split; reflexivity. Qed.

Lemma lookup_id_Some (rid : string) (h : list RasaMessage) (m : RasaMessage) :
  lookup_id rid h = Some m ->
  exists idx, list_find (fun v => id v = rid) h = Some (idx, m).
Proof.
  unfold lookup_id. destruct (list_find _ h) as [[idx x]|]; simpl; [|discriminate].
  intros [= ->]. eauto.
Qed.

Lemma lookup_id_None (rid : string) (h : list RasaMessage) :
  lookup_id rid h = None <-> Forall (fun v => id v <> rid) h.
Proof.
  unfold lookup_id. rewrite fmap_None. apply list_find_None.
Qed.

(** The element designated by its identifier in a history split around it. *)
Lemma list_find_split (pre post : list RasaMessage) (m : RasaMessage) :
  Forall (fun v => id v <> id m) pre ->
  list_find (fun v => id v = id m) (pre ++ m :: post) = Some (length pre, m).
Proof.
  intros Hpre. apply list_find_Some. split_and!.
  - rewrite lookup_app_r by lia. rewrite Nat.sub_diag. reflexivity.
  - reflexivity.
  - intros j y Hj Hlt. rewrite lookup_app_l in Hj by lia.
    eapply Forall_lookup_1 in Hpre; eauto.
Qed.

Lemma filter_id_keep (rid : string) (l : list RasaMessage) :
  Forall (fun v => id v <> rid) l -> filter (fun r => id r <> rid) l = l.
Proof.
  induction 1 as [|x l Hx _ IH]; [reflexivity|].
  rewrite filter_cons_True by exact Hx. f_equal. exact IH.
Qed.

Lemma filter_id_split (pre post : list RasaMessage) (m : RasaMessage) :
  NoDup (id <$> (pre ++ m :: post)) ->
  filter (fun r => id r <> id m) (pre ++ m :: post) = pre ++ post.
Proof.
  rewrite fmap_app, fmap_cons. intros (Hpre & Hdisj & Hpost)%NoDup_app.
  apply NoDup_cons in Hpost as [Hm Hpost].
  rewrite filter_app, filter_cons_False by (intros H; apply H; reflexivity).
  f_equal; apply filter_id_keep, Forall_forall; intros x Hx Heq.
  - apply (Hdisj (id x)); [apply list_elem_of_fmap; eauto|].
    rewrite Heq. left.
  - apply Hm. rewrite <- Heq. apply list_elem_of_fmap; eauto.
Qed.

Lemma NoDup_ids_before (pre post : list RasaMessage) (m : RasaMessage) :
  NoDup (id <$> (pre ++ m :: post)) -> Forall (fun v => id v <> id m) pre.
Proof.
  rewrite fmap_app, fmap_cons. intros (_ & Hdisj & _)%NoDup_app.
  apply Forall_forall. intros x Hx Heq.
  apply (Hdisj (id x)); [apply list_elem_of_fmap; eauto|].
  rewrite Heq. left.
Qed.

Lemma clicked_option_resolve (i : nat) (m : RasaMessage) (q : QuickReply) :
  options m !! i = Some q ->
  is_clicked <$> options (resolve i m) !! i = Some true.
Proof.
  intros Hq. rewrite options_resolve, list_lookup_imap, Hq. simpl.
  unfold is_clicked, mark. simpl. rewrite Nat.eqb_refl. reflexivity.
Qed.

(** What [setHistory] does with the updater of the command branch when
    the identifier is found. *)
Lemma setHistory_resolve_found (rid : string) (i1 idx : nat) (m : RasaMessage)
      (w : World) :
  list_find (fun v => id v = rid) (history w) = Some (idx, m) ->
  setHistory (ResolveClick rid i1) w
    = Ok tt (with_history (alter (resolve i1) idx (history w))
               (record (SetHistory (ResolveClick rid i1)) w)).
Proof.
  intros Hf. unfold setHistory, apply_updater.
  destruct (findIndex_Some _ _ _ _ Hf) as [-> _]. reflexivity.
Qed.

Lemma setHistory_resolve_missing (rid : string) (i1 : nat) (w : World) :
  Forall (fun v => id v <> rid) (history w) ->
  setHistory (ResolveClick rid i1) w
    = Throw (Error (not_found_message (history w)))
        (trace w ++ [SetHistory (ResolveClick rid i1)]).
Proof.
  intros Hf. unfold setHistory, apply_updater, findIndex.
  apply (list_find_None (fun v => id v = rid)) in Hf. rewrite Hf. reflexivity.
Qed.


(** C3 (amended). A call of [utter] appends one message of type [text]
    with [received = false] to the history and sets the status to
    [waitingForResponse]; the [user_uttered] event is emitted first, when
    the socket exists, then the status is set, then the message is
    appended: the append never comes before the emission. *)
Theorem utter_emits_then_appends (message : Utterance) (w : World) :
  exists (w' : World) (said : RasaMessage) (new : list Effect),
    utter uuidv4 message w = Ok tt w'
    /\ text said = Some message
    /\ received said = false
    /\ type said = RasaMessageType.text
    /\ history w' = history w ++ [said]
    /\ status w' = RasaStatus.waitingForResponse
    /\ trace w' = trace w ++ new
    /\ new = match socketRef w with
             | Some _ =>
                 [Emit (user_uttered
                          {| session_id := Some (or_empty (sessionRef w));
                             message := message |})]
             | None => []
             end
             ++ [SetStatus RasaStatus.waitingForResponse;
                 SetHistory (Append said)]
    /\ appended new = [said]
    /\ happens_before is_append is_user_uttered new = false.
Proof.
  destruct (utter_ok message w) as (w' & Hu & Hst & Hh & _ & _ & _ & Ht).
  exists w', (user_text (uuidv4 (uuid_calls w)) message).
  eexists. split_and!; try reflexivity; try eassumption.
  - destruct (socketRef w); reflexivity.
  - destruct (socketRef w); reflexivity.
Qed.

(** C9. The handler of [disconnect] sets the status to [disconnected],
    whatever it was, and leaves the history and the session reference
    as they are. *)
Theorem disconnect_keeps_history_and_session (reason : string) (w : World) :
  exists w',
    handle uuidv4 sendOnConnect (OnDisconnect reason) w = Ok tt w'
    /\ status w' = RasaStatus.disconnected
    /\ history w' = history w
    /\ sessionRef w' = sessionRef w.
Proof.
  eexists. split; [reflexivity|]. repeat split.
Qed.

(** *** What every handler leaves alone *)

Lemma uttered_app (t1 t2 : list Effect) : uttered (t1 ++ t2) = uttered t1 ++ uttered t2.
Proof. apply omap_app. Qed.

Lemma setHistory_frame (u : Updater) (w : World) :
  trace_of (setHistory u w) = trace w ++ [SetHistory u]
  /\ forall w', setHistory u w = Ok tt w' ->
       socketRef w' = socketRef w
       /\ sessionRef w' = sessionRef w
       /\ uuid_calls w' = uuid_calls w.
Proof.
  unfold setHistory. destruct (apply_updater u (history w)); simpl.
  - split; [reflexivity|]. discriminate.
  - split; [reflexivity|]. intros w' [= <-]. auto.
Qed.

Lemma on_click_setHistory (c : ClickClosure) (w1 : World) :
  (if String.prefix "/" (captured_payload c)
   then setHistory (ResolveClick (captured_id c) (captured_i1 c)) w1
   else setHistory (RemoveById (captured_id c)) w1)
  = setHistory (if String.prefix "/" (captured_payload c)
                then ResolveClick (captured_id c) (captured_i1 c)
                else RemoveById (captured_id c)) w1.
Proof. destruct (String.prefix "/" (captured_payload c)); reflexivity. Qed.

Lemma on_click_frame (c : ClickClosure) (w : World) :
  exists new,
    trace_of (on_click uuidv4 c w) = trace w ++ new
    /\ Forall (fun u => session_id u = Some (or_empty (sessionRef w))) (uttered new)
    /\ forall w', on_click uuidv4 c w = Ok tt w' ->
         socketRef w' = socketRef w
         /\ sessionRef w' = sessionRef w
         /\ uuid_calls w' = S (uuid_calls w).
Proof.
  destruct (utter_ok (UString (captured_payload c)) w)
    as (w1 & Hu & _ & _ & Hso & Hse & Hn & Ht).
  rewrite (on_click_unfold _ w w1), on_click_setHistory by exact Hu.
  destruct (setHistory_frame
              (if String.prefix "/" (captured_payload c)
               then ResolveClick (captured_id c) (captured_i1 c)
               else RemoveById (captured_id c)) w1) as (Ht' & Hok).
  rewrite Ht', Ht, <- !app_assoc.
  eexists. split_and!; [reflexivity| |].
  - rewrite !uttered_app. destruct (socketRef w); simpl; repeat constructor.
  - intros w' Hw'. destruct (Hok w' Hw') as (-> & -> & ->). auto.
Qed.

(** The effects of one action: the trace only grows, whether the action
    returns or throws, and the [user_uttered] events sent carry the
    session reference as it is after the action; when the action returns,
    the socket reference is kept and the session reference has changed on
    [session_confirm] only. *)
Lemma handle_frame (a : Action) (w : World) :
  exists new,
    trace_of (handle uuidv4 sendOnConnect a w) = trace w ++ new
    /\ Forall (fun u => session_id u
                        = Some (or_empty
                                  match a with
                                  | OnSessionConfirm sessionID => Some sessionID
                                  | _ => sessionRef w
                                  end))
         (uttered new)
    /\ (is_transport a = true -> is_session_confirm a = false -> uttered new = [])
    /\ forall w', handle uuidv4 sendOnConnect a w = Ok tt w' ->
         socketRef w' = socketRef w
         /\ sessionRef w' = match a with
                            | OnSessionConfirm sessionID => Some sessionID
                            | _ => sessionRef w
                            end.
Proof.
  destruct a as [message|c|h| |sessionID|message|reason|e]; cbn [handle].
  - destruct (utter_ok message w) as (w1 & Hu & _ & _ & Hso & Hse & _ & Ht).
    rewrite Hu. simpl. rewrite Ht.
    eexists. split_and!; [reflexivity| |discriminate|].
    + rewrite uttered_app. destruct (socketRef w); simpl; repeat constructor.
    + intros w' [= <-]. auto.
  - destruct (on_click_frame c w) as (new & Ht & Hall & Hok).
    exists new. split_and!; [exact Ht|exact Hall|discriminate|].
    intros w' Hw'. destruct (Hok w' Hw') as (-> & -> & _). auto.
  - destruct (setHistory_frame (Replace h) w) as (Ht & Hok).
    rewrite Ht. eexists. split_and!; [reflexivity|constructor|discriminate|].
    intros w' Hw'. destruct (Hok w' Hw') as (-> & -> & _). auto.
  - unfold on_connect. unfold_M. simpl. rewrite <- app_assoc.
    eexists. split_and!; [reflexivity|constructor|reflexivity|].
    intros w' [= <-]. auto.
  - unfold on_session_confirm. unfold_M.
    destruct (truthy sendOnConnect) as [m|].
    + destruct (utter_ok (UString m) (with_sessionRef (Some sessionID) w))
        as (w1 & Hu & _ & _ & Hso & Hse & _ & Ht).
      rewrite Hu. simpl in *. rewrite Ht.
      eexists. split_and!; [reflexivity| |discriminate|].
      * rewrite uttered_app. destruct (socketRef w); simpl; repeat constructor.
      * intros w' [= <-]. auto.
    + simpl. exists []. rewrite app_nil_r.
      split_and!; [reflexivity|constructor|discriminate|].
      intros w' [= <-]. auto.
  - unfold on_bot_uttered, lift. unfold_M.
    destruct (getType message) as [e|ty]; simpl.
    + exists []. rewrite app_nil_r.
      split_and!; [reflexivity|constructor|reflexivity|discriminate].
    + rewrite <- app_assoc.
      eexists. split_and!; [reflexivity|constructor|reflexivity|].
      intros w' [= <-]. auto.
  - eexists. split_and!; [reflexivity|constructor|reflexivity|].
    intros w' [= <-]. auto.
  - eexists. split_and!; [reflexivity|constructor|reflexivity|].
    intros w' [= <-]. auto.
Qed.

Lemma run_cons (a : Action) (rest : list Action) (w : World) :
  run uuidv4 sendOnConnect (a :: rest) w
  = match handle uuidv4 sendOnConnect a w with
    | Ok _ w1 => run uuidv4 sendOnConnect rest w1
    | Throw e t => Throw e t
    end.
Proof. reflexivity. Qed.

(** A run without [session_confirm] keeps both references when it
    returns, and every [user_uttered] event it sends, returning or not,
    carries the session reference. *)
Lemma run_frame (acts : list Action) :
  Forall (fun a => is_session_confirm a = false) acts ->
  forall w, exists new,
    trace_of (run uuidv4 sendOnConnect acts w) = trace w ++ new
    /\ Forall (fun u => session_id u = Some (or_empty (sessionRef w))) (uttered new)
    /\ forall w', run uuidv4 sendOnConnect acts w = Ok tt w' ->
         socketRef w' = socketRef w /\ sessionRef w' = sessionRef w.
Proof.
  induction 1 as [|a rest Ha _ IH]; intros w.
  - exists []. simpl. rewrite app_nil_r. split_and!; [reflexivity|constructor|].
    intros w' [= <-]. auto.
  - rewrite run_cons.
    destruct (handle_frame a w) as (new1 & Ht1 & Hall1 & _ & Hok1).
    assert (match a with
            | OnSessionConfirm sessionID => Some sessionID
            | _ => sessionRef w
            end = sessionRef w) as Hsame
      by (destruct a; try reflexivity; discriminate).
    rewrite Hsame in Hall1, Hok1.
    destruct (handle uuidv4 sendOnConnect a w) as [[] w1|e t1]; simpl in *.
    + destruct (Hok1 w1 eq_refl) as [Hso1 Hse1].
      destruct (IH w1) as (new2 & Ht2 & Hall2 & Hok2).
      exists (new1 ++ new2). rewrite Ht2, Ht1, <- app_assoc.
      split_and!; [reflexivity| |].
      * rewrite uttered_app, Forall_app. split; [exact Hall1|].
        rewrite <- Hse1. exact Hall2.
      * intros w' Hw'. destruct (Hok2 w' Hw') as [-> ->]. auto.
    + exists new1. split_and!; [assumption|assumption|discriminate].
Qed.

(** Transport events other than [session_confirm] send no
    [user_uttered] event. *)
Lemma run_transport (pre : list Action) :
  Forall (fun a => is_transport a = true /\ is_session_confirm a = false) pre ->
  forall w,
    uttered (trace_of (run uuidv4 sendOnConnect pre w)) = uttered (trace w)
    /\ forall w1, run uuidv4 sendOnConnect pre w = Ok tt w1 ->
         socketRef w1 = socketRef w.
Proof.
  induction 1 as [|a rest [Ha1 Ha2] _ IH]; intros w.
  - split; [reflexivity|]. intros w1 [= <-]. reflexivity.
  - rewrite run_cons.
    destruct (handle_frame a w) as (new1 & Ht1 & _ & Hnone & Hok1).
    specialize (Hnone Ha1 Ha2).
    destruct (handle uuidv4 sendOnConnect a w) as [[] w1|e t1]; simpl in *.
    + destruct (Hok1 w1 eq_refl) as [Hso1 _].
      destruct (IH w1) as (Hu & Hso).
      rewrite Hu, Ht1, uttered_app, Hnone, app_nil_r.
      split; [reflexivity|]. intros w2 Hw2. rewrite (Hso w2 Hw2). exact Hso1.
    + rewrite Ht1, uttered_app, Hnone, app_nil_r. split; [reflexivity|discriminate].
Qed.

(** Outside clicks, a handler returns as long as [getType] classifies
    the payload of [bot_uttered]. *)
Lemma handle_returns (a : Action) (w : World) :
  is_click a = false ->
  is_classified a = true ->
  exists w', handle uuidv4 sendOnConnect a w = Ok tt w'.
Proof.
  intros Ht Hc.
  destruct a as [said| |h| |sessionID|payload| |]; try discriminate; cbn [handle].
  - destruct (utter_ok said w) as (w' & Hu & _). exists w'. exact Hu.
  - eexists. reflexivity.
  - eexists. reflexivity.
  - unfold on_session_confirm. unfold_M. simpl.
    destruct (truthy sendOnConnect) as [m|].
    + destruct (utter_ok (UString m) (with_sessionRef (Some sessionID) w))
        as (w' & Hu & _). exists w'. exact Hu.
    + eexists. reflexivity.
  - unfold on_bot_uttered, lift. unfold_M. simpl in Hc.
    destruct (getType payload) as [e|kind]; [discriminate|]. simpl.
    destruct (mjoin (quick_replies (spread payload))); eexists; reflexivity.
  - eexists. reflexivity.
  - eexists. reflexivity.
Qed.

Lemma run_returns (acts : list Action) :
  Forall (fun a => is_click a = false) acts ->
  Forall (fun a => is_classified a = true) acts ->
  forall w, exists w1, run uuidv4 sendOnConnect acts w = Ok tt w1.
Proof.
  induction 1 as [|a rest Ha _ IH]; intros Hc w.
  - eexists. reflexivity.
  - apply Forall_cons in Hc as [Hc1 Hc2]. rewrite run_cons.
    destruct (handle_returns a w Ha Hc1) as (w0 & ->). apply (IH Hc2).
Qed.

(** C7. After [session_confirm] delivers the token [t], every
    [user_uttered] event sent while handling it and the actions that
    follow (calls of [utter], clicks, transport events) carries
    [session_id = t], as long as no other [session_confirm] arrives. *)
Theorem session_token_sent_verbatim (t : string) (acts : list Action) (w : World) :
  Forall (fun a => is_session_confirm a = false) acts ->
  exists new,
    trace_of (run uuidv4 sendOnConnect (OnSessionConfirm t :: acts) w)
      = trace w ++ new
    /\ Forall (fun u => session_id u = Some t) (uttered new).
Proof.
  intros Hacts. rewrite run_cons.
  destruct (handle_frame (OnSessionConfirm t) w)
    as (new1 & Ht1 & Hall1 & _ & Hok1).
  rewrite or_empty_Some in Hall1.
  destruct (handle uuidv4 sendOnConnect (OnSessionConfirm t) w) as [[] w1|e t1];
    simpl in *.
  - destruct (Hok1 w1 eq_refl) as [_ Hse1].
    destruct (run_frame acts Hacts w1) as (new2 & Ht2 & Hall2 & _).
    rewrite Hse1, or_empty_Some in Hall2.
    exists (new1 ++ new2). rewrite Ht2, Ht1, <- app_assoc.
    split; [reflexivity|]. rewrite uttered_app, Forall_app. auto.
  - exists new1. auto.
Qed.

(** C8. With [sendOnConnect] set to a non-empty string [m]: the
    transport events that come before [session_confirm] send no
    [user_uttered] event, whether they are all handled or one of them
    throws, and they are all handled when [getType] classifies the
    payloads of [bot_uttered]; once they are handled, handling
    [session_confirm(t)] sends exactly one, with [session_id = t] and
    [message = m], and appends exactly one message, the text entry of [m],
    to the history. *)
Theorem sendOnConnect_sent_on_confirm
    (m t : string) (sock : Socket) (pre : list Action) (w : World) :
  sendOnConnect = Some m ->
  m <> "" ->
  socketRef w = Some sock ->
  Forall (fun a => is_transport a = true /\ is_session_confirm a = false) pre ->
  uttered (trace_of (run uuidv4 sendOnConnect pre w)) = uttered (trace w)
  /\ (Forall (fun a => is_classified a = true) pre ->
      exists w1, run uuidv4 sendOnConnect pre w = Ok tt w1)
  /\ forall w1,
       run uuidv4 sendOnConnect pre w = Ok tt w1 ->
       exists w2,
         uttered (trace w1) = uttered (trace w)
         /\ handle uuidv4 sendOnConnect (OnSessionConfirm t) w1 = Ok tt w2
         /\ sessionRef w2 = Some t
         /\ trace w2 =
              trace w1
              ++ [Emit (user_uttered {| session_id := Some t; message := UString m |});
                  SetStatus RasaStatus.waitingForResponse;
                  SetHistory (Append (user_text (uuidv4 (uuid_calls w1)) (UString m)))]
         /\ history w2 = history w1 ++ [user_text (uuidv4 (uuid_calls w1)) (UString m)].
Proof.
  intros Hs Hm Hsock Hpre.
  destruct (run_transport pre Hpre w) as (Hu & Hso).
  split; [exact Hu|]. split.
  { intros Hc. apply run_returns; [|exact Hc].
    eapply Forall_impl; [exact Hpre|]. intros a [Ha _].
    destruct a; try reflexivity; discriminate. }
  intros w1 Hr. specialize (Hso w1 Hr).
  rewrite Hr in Hu. simpl in Hu.
  destruct (utter_ok (UString m) (with_sessionRef (Some t) w1))
    as (w2 & Hu2 & _ & Hh2 & _ & Hse2 & _ & Ht2).
  exists w2.
  cbn [with_sessionRef socketRef sessionRef history uuid_calls trace] in *.
  rewrite Hso, Hsock, or_empty_Some in Ht2.
  split_and!; auto.
  cbn [handle]. unfold on_session_confirm, truthy. rewrite Hs.
  destruct (decide (m = "")); [contradiction|]. exact Hu2.
Qed.

(** C10. A call of [utter] made before any [session_confirm] was
    received, on a hook that was just mounted or has handled other
    actions since, sends a [user_uttered] event whose [session_id] field
    is present and is the empty string. *)
Theorem utter_before_confirm_sends_empty_session
    (rasaWebServerUrl rasaSocketPath : string) (acts : list Action)
    (message : Utterance) (w0 w : World) :
  mount rasaWebServerUrl rasaSocketPath initial_world = Ok tt w0 ->
  Forall (fun a => is_session_confirm a = false) acts ->
  run uuidv4 sendOnConnect acts w0 = Ok tt w ->
  exists w',
    utter uuidv4 message w = Ok tt w'
    /\ uttered (trace w')
       = uttered (trace w) ++ [{| session_id := Some ""; message := message |}].
Proof.
  intros Hmount Hacts Hrun.
  destruct (run_frame acts Hacts w0) as (new & _ & _ & Hok).
  destruct (Hok w Hrun) as [Hso Hse].
  injection Hmount as <-. simpl in Hso, Hse.
  destruct (utter_ok message w) as (w' & Hu & _ & _ & _ & _ & _ & Ht).
  exists w'. split; [exact Hu|].
  rewrite Ht, Hso, Hse, !uttered_app. reflexivity.
Qed.

(** *** Counting the clicked options of a resolved group *)

Lemma is_clicked_mark (i1 i2 : nat) (q : QuickReply) :
  is_clicked (mark i1 i2 q) = Nat.eqb i1 i2.
Proof. unfold is_clicked. simpl. destruct (Nat.eqb i1 i2); reflexivity. Qed.

Lemma count_mark (i1 : nat) (l : list QuickReply) :
  forall k,
    length (filter (fun q => is_clicked q = true)
              (imap (fun j => mark i1 (k + j)) l))
    = if decide (k <= i1 < k + length l) then 1 else 0.
Proof.
  induction l as [|q l IH]; intros k.
  - simpl. case_decide; [lia|reflexivity].
  - rewrite imap_cons.
    rewrite (imap_ext _ (fun j => mark i1 (S k + j)))
      by (intros; simpl; f_equal; lia).
    rewrite filter_cons, Nat.add_0_r, is_clicked_mark.
    destruct (Nat.eqb_spec i1 k) as [->|Hne].
    + rewrite decide_True by reflexivity. cbn [length]. rewrite IH.
      rewrite decide_False by lia. rewrite decide_True by lia. reflexivity.
    + rewrite decide_False by discriminate. rewrite IH.
      cbn [length]. repeat case_decide; lia || reflexivity.
Qed.

Lemma clicked_count_resolve (i1 : nat) (m : RasaMessage) :
  i1 < length (options m) -> clicked_count (resolve i1 m) = 1.
Proof.
  intros Hlt. unfold clicked_count. rewrite options_resolve.
  change (imap (mark i1) (options m))
    with (imap (fun j => mark i1 (0 + j)) (options m)).
  rewrite (count_mark i1 (options m) 0). apply decide_True. lia.
Qed.

Lemma length_options_resolve (i1 : nat) (m : RasaMessage) :
  length (options (resolve i1 m)) = length (options m).
Proof. rewrite options_resolve. apply length_imap. Qed.

(** Each option of a resolved group is marked clicked exactly when it is
    the one the click was on. *)
Lemma flags_resolve (i1 j : nat) (m : RasaMessage) (q' : QuickReply) :
  options (resolve i1 m) !! j = Some q' -> is_clicked q' = Nat.eqb i1 j.
Proof.
  rewrite options_resolve, list_lookup_imap.
  destruct (options m !! j); simpl; [|discriminate].
  intros [= <-]. apply is_clicked_mark.
Qed.

Lemma lookup_id_app_fresh (rid : string) (h : list RasaMessage) (x : RasaMessage) :
  id x <> rid -> lookup_id rid (h ++ [x]) = lookup_id rid h.
Proof.
  intros Hx. unfold lookup_id.
  destruct (list_find (fun v => id v = rid) h) as [[idx y]|] eqn:Hf.
  - erewrite list_find_app_l by exact Hf. reflexivity.
  - rewrite list_find_app_r by exact Hf. simpl.
    rewrite decide_False by exact Hx. reflexivity.
Qed.

Lemma lookup_id_filter (rid : string) (h : list RasaMessage) :
  lookup_id rid (filter (fun r => id r <> rid) h) = None.
Proof.
  apply lookup_id_None, Forall_forall.
  intros x [Hx _]%list_elem_of_filter. exact Hx.
Qed.

Lemma lookup_id_alter_resolve (rid : string) (i1 idx : nat)
      (h : list RasaMessage) (m : RasaMessage) :
  list_find (fun v => id v = rid) h = Some (idx, m) ->
  lookup_id rid (alter (resolve i1) idx h) = Some (resolve i1 m).
Proof.
  intros Hf. unfold lookup_id.
  rewrite (list_find_alter_resolve _ i1 _ _ _ Hf). reflexivity.
Qed.

(** *** One click on a group, whatever came before *)

Lemma on_click_group (rid : string) (n : nat) (c : ClickClosure) (w w' : World) :
  group_inv uuidv4 rid n w ->
  captured_id c = rid ->
  captured_i1 c < n ->
  on_click uuidv4 c w = Ok tt w' ->
  group_inv uuidv4 rid n w'
  /\ (forall m', lookup_id rid (history w') = Some m' -> resolved m').
Proof.
  intros [Hlen Hfresh] Hid Hi Hrun.
  destruct (utter_ok (UString (captured_payload c)) w)
    as (w1 & Hu & _ & Hh1 & _ & _ & Hn1 & _).
  rewrite (on_click_unfold _ w w1), Hid in Hrun by exact Hu.
  assert (lookup_id rid (history w1) = lookup_id rid (history w)) as Hl1.
  { rewrite Hh1. apply lookup_id_app_fresh. simpl. apply Hfresh. lia. }
  assert (forall k, uuid_calls w1 <= k -> uuidv4 k <> rid) as Hfresh1.
  { intros k Hk. apply Hfresh. lia. }
  destruct (String.prefix "/" (captured_payload c)).
  - destruct (list_find (fun v => id v = rid) (history w1)) as [[idx m1]|] eqn:Hf.
    + rewrite (setHistory_resolve_found _ _ _ _ _ Hf) in Hrun.
      injection Hrun as <-. unfold group_inv. simpl.
      rewrite (lookup_id_alter_resolve _ (captured_i1 c) _ _ _ Hf).
      assert (length (options m1) = n) as Hm1.
      { apply Hlen. rewrite <- Hl1. apply (findIndex_Some _ _ _ _ Hf). }
      split; [split|].
      * intros m' [= <-]. rewrite length_options_resolve. exact Hm1.
      * exact Hfresh1.
      * intros m' [= <-]. split; [reflexivity|].
        apply clicked_count_resolve. lia.
    + apply list_find_None in Hf.
      rewrite (setHistory_resolve_missing _ _ _ Hf) in Hrun. discriminate.
  - unfold setHistory, apply_updater in Hrun. injection Hrun as <-.
    unfold group_inv. simpl. rewrite lookup_id_filter. split; [split|]; [discriminate|exact Hfresh1|discriminate].
Qed.

Lemma run_clicks_group (rid : string) (n : nat) (cs : list ClickClosure) :
  Forall (fun c => captured_id c = rid /\ captured_i1 c < n) cs ->
  forall w w',
    group_inv uuidv4 rid n w ->
    run uuidv4 sendOnConnect (CallOnClick <$> cs) w = Ok tt w' ->
    group_inv uuidv4 rid n w'
    /\ (cs <> [] -> forall m', lookup_id rid (history w') = Some m' -> resolved m').
Proof.
  induction 1 as [|c rest [Hid Hi] Hrest IH]; intros w w' Hinv Hrun.
  - injection Hrun as <-. split; [exact Hinv|congruence].
  - rewrite fmap_cons, run_cons in Hrun. cbn [handle] in Hrun.
    destruct (on_click uuidv4 c w) as [[] w1|e w1] eqn:Hc; [|discriminate].
    destruct (on_click_group rid n c w w1 Hinv Hid Hi Hc) as [Hinv1 Hres1].
    destruct (IH w1 w' Hinv1 Hrun) as [Hinv' Hres'].
    split; [exact Hinv'|]. intros _.
    destruct rest as [|c' rest'].
    + injection Hrun as <-. exact Hres1.
    + apply Hres'. discriminate.
Qed.

Lemma closure_of_wired (m : RasaMessage) (c : ClickClosure) :
  wired m -> closure_of m c ->
  captured_id c = id m /\ captured_i1 c < length (options m).
Proof.
  intros Hw (i & q & Hq & Hc). rewrite (Hw i q Hq) in Hc.
  injection Hc as <-. simpl. split; [reflexivity|].
  eapply lookup_lt_Some, Hq.
Qed.

(** C4. Take a quick-reply message [m] of the history and any non-empty
    sequence of clicks on its options. If the sequence runs to its end
    and the message is still in the history afterwards, then the message
    has [clicked = true] and exactly one of its options has
    [clicked = true]. *)
Theorem clicks_leave_one_option_clicked
    (w w' : World) (m m' : RasaMessage) (cs : list ClickClosure) :
  lookup_id (id m) (history w) = Some m ->
  wired m ->
  (forall k, uuid_calls w <= k -> uuidv4 k <> id m) ->
  Forall (closure_of m) cs ->
  cs <> [] ->
  run uuidv4 sendOnConnect (CallOnClick <$> cs) w = Ok tt w' ->
  lookup_id (id m) (history w') = Some m' ->
  clicked m' = Some true /\ clicked_count m' = 1.
Proof.
  intros Hm Hw Hfresh Hcs Hne Hrun Hm'.
  assert (group_inv uuidv4 (id m) (length (options m)) w) as Hinv.
  { split; [|exact Hfresh]. intros m1 Hm1. congruence. }
  assert (Forall (fun c => captured_id c = id m
                           /\ captured_i1 c < length (options m)) cs) as Hcs'.
  { eapply Forall_impl; [exact Hcs|]. intros c. apply closure_of_wired, Hw. }
  destruct (run_clicks_group _ _ cs Hcs' w w' Hinv Hrun) as [_ Hres].
  exact (Hres Hne m' Hm').
Qed.

(** A click on a message that is in the history, by a closure wired to
    it: the result in full. *)
Lemma on_click_member
    (w : World) (pre post : list RasaMessage) (m : RasaMessage)
    (i : nat) (p : string) :
  history w = pre ++ m :: post ->
  NoDup (id <$> history w) ->
  uuidv4 (uuid_calls w) <> id m ->
  exists w',
    on_click uuidv4
      {| captured_payload := p; captured_i1 := i; captured_id := id m |} w
      = Ok tt w'
    /\ uttered (trace w')
       = uttered (trace w)
         ++ match socketRef w with
            | Some _ => [{| session_id := Some (or_empty (sessionRef w));
                            message := UString p |}]
            | None => []
            end
    /\ if String.prefix "/" p
       then history w' =
              pre ++ resolve i m :: post
                ++ [user_text (uuidv4 (uuid_calls w)) (UString p)]
            /\ lookup_id (id m) (history w') = Some (resolve i m)
       else history w' =
              pre ++ post ++ [user_text (uuidv4 (uuid_calls w)) (UString p)]
            /\ lookup_id (id m) (history w') = None.
Proof.
  intros Hh Hnd Hfresh.
  destruct (utter_ok (UString p) w) as (w1 & Hu & _ & Hh1 & _ & _ & _ & Ht1).
  rewrite (on_click_unfold _ w w1) by exact Hu. simpl.
  rewrite Hh in Hnd. pose proof (NoDup_ids_before _ _ _ Hnd) as Hpre.
  rewrite Hh, <- app_assoc in Hh1. simpl in Hh1.
  assert (list_find (fun v => id v = id m) (history w1) = Some (length pre, m))
    as Hf by (rewrite Hh1; apply list_find_split, Hpre).
  assert (uttered (trace w1)
          = uttered (trace w)
            ++ match socketRef w with
               | Some _ => [{| session_id := Some (or_empty (sessionRef w));
                               message := UString p |}]
               | None => []
               end) as Hut.
  { rewrite Ht1, !uttered_app. simpl. rewrite app_nil_r.
    destruct (socketRef w); reflexivity. }
  destruct (String.prefix "/" p).
  - rewrite (setHistory_resolve_found _ _ _ _ _ Hf).
    eexists. split; [reflexivity|]. simpl.
    rewrite uttered_app, Hut. simpl. rewrite app_nil_r.
    split; [reflexivity|].
    rewrite (lookup_id_alter_resolve _ i _ _ _ Hf). split; [|reflexivity].
    rewrite Hh1, <- (Nat.add_0_r (length pre)), alter_app_r. reflexivity.
  - unfold setHistory, apply_updater. eexists. split; [reflexivity|].
    simpl. rewrite uttered_app, Hut. simpl. rewrite app_nil_r.
    split; [reflexivity|]. rewrite lookup_id_filter. split; [|reflexivity].
    rewrite Hh1.
    change (pre ++ m :: post ++ ?l) with (pre ++ (m :: post) ++ l).
    rewrite app_assoc, filter_app, filter_id_split by exact Hnd.
    rewrite filter_cons_True by exact Hfresh.
    rewrite app_assoc. reflexivity.
Qed.

Lemma resolve_resolved_by_click (i : nat) (m : RasaMessage) :
  resolved_by_click i m (resolve i m).
Proof.
  unfold resolved_by_click. split_and!; try reflexivity.
  - apply length_options_resolve.
  - intros j q Hq. exists (mark i j q).
    rewrite options_resolve, list_lookup_imap, Hq. repeat split; reflexivity.
Qed.

Lemma user_text_text_entry (rid : string) (message : Utterance) :
  text_entry rid message (user_text rid message).
Proof. unfold text_entry. repeat split; reflexivity. Qed.

(** C1. A click on option [i] of a quick-reply message [m] of the
    history: when the payload of the option starts with ["/"], [m] stays
    at its place in its resolved state: the group and option [i] are
    marked clicked, the other options are marked not clicked, and the
    identifier, the type, the text, the attachment and the contents and
    closures of the options are those of [m]; otherwise [m] is removed and
    the other messages keep their relative order. In both cases the text
    entry of the utterance is appended at the end. *)
Theorem click_keeps_command_or_removes
    (w : World) (pre post : list RasaMessage) (m : RasaMessage)
    (i : nat) (q : QuickReply) (c : ClickClosure) :
  history w = pre ++ m :: post ->
  NoDup (id <$> history w) ->
  uuidv4 (uuid_calls w) <> id m ->
  wired m ->
  options m !! i = Some q ->
  onClick q = Some c ->
  exists (w' : World) (said : RasaMessage),
    on_click uuidv4 c w = Ok tt w'
    /\ text_entry (uuidv4 (uuid_calls w)) (UString (payload q)) said
    /\ if String.prefix "/" (payload q)
       then exists m',
              history w' = pre ++ m' :: post ++ [said]
              /\ m' = resolve i m
              /\ resolved_by_click i m m'
              /\ is_clicked <$> options m' !! i = Some true
       else history w' = pre ++ post ++ [said]
            /\ lookup_id (id m) (history w') = None.
Proof.
  intros Hh Hnd Hfresh Hw Hq Hc.
  rewrite (Hw i q Hq) in Hc. injection Hc as <-.
  destruct (on_click_member w pre post m i (payload q) Hh Hnd Hfresh)
    as (w' & Hrun & _ & Hcase).
  exists w', (user_text (uuidv4 (uuid_calls w)) (UString (payload q))).
  split; [exact Hrun|]. split; [apply user_text_text_entry|].
  destruct (String.prefix "/" (payload q)).
  - destruct Hcase as [Hh' _]. exists (resolve i m).
    split_and!; [exact Hh'|reflexivity|apply resolve_resolved_by_click|].
    eapply clicked_option_resolve, Hq.
  - exact Hcase.
Qed.


(** C6 (amended). A click on an option of a group that is already
    resolved is handled like a first click: one more [user_uttered] event
    is sent and one more text entry of the user is appended, so that the
    history changes; when the payload starts with ["/"] the group stays
    resolved at its place, with the option just clicked as the only one
    marked, and otherwise the group is removed. *)
Theorem second_click_resolves_again
    (w : World) (pre post : list RasaMessage) (m : RasaMessage)
    (i : nat) (q : QuickReply) (c : ClickClosure) (sock : Socket) :
  history w = pre ++ m :: post ->
  NoDup (id <$> history w) ->
  uuidv4 (uuid_calls w) <> id m ->
  wired m ->
  resolved m ->
  socketRef w = Some sock ->
  options m !! i = Some q ->
  onClick q = Some c ->
  exists (w' : World) (said : RasaMessage),
    on_click uuidv4 c w = Ok tt w'
    /\ text_entry (uuidv4 (uuid_calls w)) (UString (payload q)) said
    /\ history w' <> history w
    /\ uttered (trace w')
       = uttered (trace w)
         ++ [{| session_id := Some (or_empty (sessionRef w));
                message := UString (payload q) |}]
    /\ if String.prefix "/" (payload q)
       then exists m',
              history w' = pre ++ m' :: post ++ [said]
              /\ lookup_id (id m) (history w') = Some m'
              /\ resolved_by_click i m m'
              /\ resolved m'
              /\ (forall j q', options m' !! j = Some q' ->
                               is_clicked q' = Nat.eqb i j)
       else history w' = pre ++ post ++ [said]
            /\ lookup_id (id m) (history w') = None.
Proof.
  intros Hh Hnd Hfresh Hw _ Hsock Hq Hc.
  rewrite (Hw i q Hq) in Hc. injection Hc as <-.
  destruct (on_click_member w pre post m i (payload q) Hh Hnd Hfresh)
    as (w' & Hrun & Hut & Hcase).
  rewrite Hsock in Hut.
  exists w', (user_text (uuidv4 (uuid_calls w)) (UString (payload q))).
  split_and!; [exact Hrun|apply user_text_text_entry| |exact Hut|].
  - intros Heq. rewrite Heq, Hh in Hcase.
    destruct (String.prefix "/" (payload q)).
    + destruct Hcase as [Hlen _]. apply (f_equal length) in Hlen.
      rewrite !length_app in Hlen. simpl in Hlen.
      rewrite length_app in Hlen. simpl in Hlen. lia.
    + destruct Hcase as [_ Hnone].
      rewrite Hh in Hnd. pose proof (NoDup_ids_before _ _ _ Hnd) as Hpre.
      pose proof (list_find_split pre post m Hpre) as Hf.
      apply findIndex_Some in Hf as [_ Hf]. congruence.
  - destruct (String.prefix "/" (payload q)); [|apply Hcase].
    destruct Hcase as [Hh' Hl]. exists (resolve i m).
    split_and!; [exact Hh'|exact Hl|apply resolve_resolved_by_click| |].
    + split; [reflexivity|]. apply clicked_count_resolve.
      eapply lookup_lt_Some, Hq.
    + intros j q'. apply flags_resolve.
Qed.

(** *** The invariant of the hook *)

Section Invariant.

Hypothesis uuidv4_inj : forall j k, uuidv4 j = uuidv4 k -> j = k.

Lemma wired_resolve (i1 : nat) (m : RasaMessage) : wired m -> wired (resolve i1 m).
Proof.
  intros Hw j q. rewrite options_resolve, list_lookup_imap.
  destruct (options m !! j) as [q0|] eqn:Hq; simpl; [|discriminate].
  intros [= <-]. simpl. rewrite (Hw j q0 Hq). reflexivity.
Qed.

Lemma wired_user_text (rid : string) (message : Utterance) :
  wired (user_text rid message).
Proof. intros j q. unfold options. simpl. discriminate. Qed.

Lemma wired_response (message : SocketIOUtterBot) (rid : string)
      (t : RasaMessageType.t) (qs : list QuickReply) :
  wired (set_quick_replies
           {| utterBot := message; id := rid; type := t; received := true |}
           (Some (Some (imap (wire rid) qs)))).
Proof.
  intros j q. unfold options. simpl. rewrite list_lookup_imap.
  destruct (qs !! j); simpl; [|discriminate]. intros [= <-]. reflexivity.
Qed.

Lemma ids_inv_append (h : list RasaMessage) (n : nat) (x : RasaMessage) :
  ids_inv uuidv4 h n -> wired x -> id x = uuidv4 n ->
  ids_inv uuidv4 (h ++ [x]) (S n).
Proof.
  intros (Hw & Hids & Hnd) Hx Hid. split_and!.
  - apply Forall_app. split; [exact Hw|]. repeat constructor. exact Hx.
  - apply Forall_app. split.
    + eapply Forall_impl; [exact Hids|]. intros y (k & Hk & Hy). exists k. split; [lia|exact Hy].
    + repeat constructor. exists n. split; [lia|exact Hid].
  - rewrite fmap_app. apply NoDup_app. split_and!.
    + exact Hnd.
    + intros s0 Hin Hin'. simpl in Hin'. apply list_elem_of_singleton in Hin'.
      apply list_elem_of_fmap in Hin as (y & -> & Hy).
      rewrite Forall_forall in Hids. destruct (Hids y Hy) as (k & Hk & Hyk).
      rewrite Hin', Hid in Hyk. apply uuidv4_inj in Hyk. lia.
    + simpl. apply NoDup_singleton.
Qed.

Lemma ids_inv_alter (h : list RasaMessage) (n i1 idx : nat) :
  ids_inv uuidv4 h n -> ids_inv uuidv4 (alter (resolve i1) idx h) n.
Proof.
  intros (Hw & Hids & Hnd). split_and!.
  - apply Forall_alter; [exact Hw|]. intros x _. apply wired_resolve.
  - apply Forall_alter; [exact Hids|]. intros x _ Hx. exact Hx.
  - rewrite (list_fmap_alter id (resolve i1) (fun x => x)).
    + rewrite list_alter_id by reflexivity. exact Hnd.
    + apply Forall_forall. reflexivity.
Qed.

Lemma ids_inv_filter (h : list RasaMessage) (n : nat) (rid : string) :
  ids_inv uuidv4 h n -> ids_inv uuidv4 (filter (fun r => id r <> rid) h) n.
Proof.
  intros (Hw & Hids & Hnd).
  pose proof (sublist_filter (fun r => id r <> rid) h) as Hsub.
  split_and!.
  - apply Forall_forall. intros x [_ Hx]%list_elem_of_filter.
    rewrite Forall_forall in Hw. auto.
  - apply Forall_forall. intros x [_ Hx]%list_elem_of_filter.
    rewrite Forall_forall in Hids. auto.
  - eapply sublist_NoDup; [exact Hnd|]. apply fmap_sublist, Hsub.
Qed.

Lemma utter_inv (message : Utterance) (w w' : World) :
  hook_inv uuidv4 w -> utter uuidv4 message w = Ok tt w' -> hook_inv uuidv4 w'.
Proof.
  intros Hinv Hrun.
  destruct (utter_ok message w) as (w1 & Hu & _ & Hh & _ & _ & Hn & _).
  rewrite Hu in Hrun. injection Hrun as <-.
  unfold hook_inv. rewrite Hh, Hn.
  apply ids_inv_append; [exact Hinv|apply wired_user_text|reflexivity].
Qed.

Lemma setHistory_inv (u : Updater) (w w' : World) :
  match u with
  | ResolveClick _ _ | RemoveById _ => True
  | _ => False
  end ->
  hook_inv uuidv4 w -> setHistory u w = Ok tt w' -> hook_inv uuidv4 w'.
Proof.
  intros Hu Hinv. unfold setHistory, hook_inv.
  destruct u as [m|rid i1|rid|h]; try contradiction; simpl.
  - destruct (findIndex rid (history w)); simpl; [|discriminate].
    intros [= <-]. apply ids_inv_alter, Hinv.
  - intros [= <-]. apply ids_inv_filter, Hinv.
Qed.

(** Every action other than a replacement of the history by the
    application keeps the invariant. *)
Lemma handle_inv (a : Action) (w w' : World) :
  is_set_history a = false ->
  hook_inv uuidv4 w ->
  handle uuidv4 sendOnConnect a w = Ok tt w' ->
  hook_inv uuidv4 w'.
Proof.
  intros Ha Hinv.
  destruct a as [message|c|h| |sessionID|message|reason|e]; cbn [handle];
    try discriminate.
  - apply utter_inv, Hinv.
  - destruct (utter_ok (UString (captured_payload c)) w) as (w1 & Hu & _).
    pose proof (utter_inv _ w w1 Hinv Hu) as Hinv1.
    rewrite (on_click_unfold _ w w1) by exact Hu.
    destruct (String.prefix "/" (captured_payload c));
      apply setHistory_inv; auto.
  - unfold on_connect. unfold_M. simpl. intros [= <-]. exact Hinv.
  - unfold on_session_confirm. unfold_M.
    destruct (truthy sendOnConnect) as [m|]; [|intros [= <-]; exact Hinv].
    apply (utter_inv (UString m) (with_sessionRef (Some sessionID) w)), Hinv.
  - unfold on_bot_uttered, lift, hook_inv. unfold_M.
    destruct (getType message) as [e|ty]; simpl; [discriminate|].
    intros [= <-]. simpl.
    apply ids_inv_append; [exact Hinv| |].
    + destruct (mjoin (quick_replies (spread message))) as [qs|] eqn:Hqs;
        [apply wired_response|].
      intros j q. unfold options. simpl. simpl in Hqs. rewrite Hqs. discriminate.
    + destruct (mjoin (quick_replies (spread message))); reflexivity.
  - intros [= <-]. exact Hinv.
  - intros [= <-]. exact Hinv.
Qed.

Lemma run_inv (acts : list Action) :
  Forall (fun a => is_set_history a = false) acts ->
  forall w w', hook_inv uuidv4 w ->
               run uuidv4 sendOnConnect acts w = Ok tt w' ->
               hook_inv uuidv4 w'.
Proof.
  induction 1 as [|a rest Ha _ IH]; intros w w' Hinv Hrun.
  - injection Hrun as <-. exact Hinv.
  - rewrite run_cons in Hrun.
    destruct (handle uuidv4 sendOnConnect a w) as [[] w1|e t1] eqn:Ha1;
      [|discriminate].
    eapply IH; [|exact Hrun]. eapply handle_inv; eauto.
Qed.

(** In a world the hook reaches from its mount the hypotheses made on
    the history above hold of every message: it is wired, its identifier
    occurs once, and [uuidv4] will not return it again. *)
Lemma reachable_history (rasaWebServerUrl rasaSocketPath : string)
      (acts : list Action) (w0 w : World) (m : RasaMessage) :
  Forall (fun a => is_set_history a = false) acts ->
  mount rasaWebServerUrl rasaSocketPath initial_world = Ok tt w0 ->
  run uuidv4 sendOnConnect acts w0 = Ok tt w ->
  m ∈ history w ->
  wired m
  /\ NoDup (id <$> history w)
  /\ lookup_id (id m) (history w) = Some m
  /\ (forall k, uuid_calls w <= k -> uuidv4 k <> id m).
Proof.
  intros Hacts Hmount Hrun Hm.
  assert (hook_inv uuidv4 w) as (Hw & Hids & Hnd).
  { eapply run_inv; [exact Hacts| |exact Hrun]. injection Hmount as <-.
    unfold hook_inv. simpl. split_and!; constructor. }
  split_and!.
  - rewrite Forall_forall in Hw. auto.
  - exact Hnd.
  - apply list_elem_of_split in Hm as (pre & post & Hsplit).
    rewrite Hsplit in Hnd |- *.
    pose proof (NoDup_ids_before _ _ _ Hnd) as Hpre.
    apply (findIndex_Some _ _ (length pre)), list_find_split, Hpre.
  - intros k Hk Heq. rewrite Forall_forall in Hids.
    destruct (Hids m Hm) as (j & Hj & Hid). rewrite Hid in Heq.
    apply uuidv4_inj in Heq. lia.
Qed.

End Invariant.

(** *** The handler of [bot_uttered] *)

(** X1. The handler of [bot_uttered] classifies before anything else:
    when [getType] throws, the handler throws the same exception and
    nothing has been sent or handed to React. When the handler returns,
    the payload was an object that [getType] classified, and one message
    has been appended at the end of the history: received, with a new
    identifier, of the type [getType] gave, with the [attachment], [text]
    and [clicked] fields of the payload as they came; the status is
    [connected], nothing has been sent and the session reference is
    kept. *)
Theorem bot_uttered_appends (message : option SocketIOUtterBot) (w : World) :
  (forall e,
      getType message = inl e ->
      handle uuidv4 sendOnConnect (OnBotUttered message) w = Throw e (trace w))
  /\ (forall w',
        handle uuidv4 sendOnConnect (OnBotUttered message) w = Ok tt w' ->
        exists (p : SocketIOUtterBot) (response : RasaMessage),
          message = Some p
          /\ getType message = inr (type response)
          /\ history w' = history w ++ [response]
          /\ id response = uuidv4 (uuid_calls w)
          /\ received response = true
          /\ attachment response = attachment p
          /\ text response = text p
          /\ clicked response = clicked p
          /\ status w' = RasaStatus.connected
          /\ emitted (trace w') = emitted (trace w)
          /\ sessionRef w' = sessionRef w).
Proof.
  cbn [handle]. unfold on_bot_uttered, lift. unfold_M. split.
  - intros e ->. reflexivity.
  - intros w'. destruct message as [p|]; [|discriminate].
    destruct (getType (Some p)) as [e|kind]; simpl; [discriminate|].
    destruct (mjoin (quick_replies p)); intros [= <-];
      (eexists p, _; split; [reflexivity|]; simpl;
       unfold emitted; rewrite <- app_assoc, omap_app; simpl;
       rewrite app_nil_r; repeat split; reflexivity).
Qed.


(** *** Lifecycle events and the session *)

(** X3. [connect], [disconnect] and [error] never throw; they set the
    status that goes with the event and leave the history, the session
    reference and the socket reference as they are; none of them sends a
    [user_uttered] event. *)
Theorem lifecycle_keeps_conversation (a : Action) (w : World) :
  is_lifecycle a = true ->
  exists w',
    handle uuidv4 sendOnConnect a w = Ok tt w'
    /\ status w' = lifecycle_status a (status w)
    /\ history w' = history w
    /\ sessionRef w' = sessionRef w
    /\ socketRef w' = socketRef w
    /\ uttered (trace w') = uttered (trace w).
Proof.
  intros Ha. destruct a; try discriminate; simpl.
  - unfold on_connect. unfold_M. simpl. eexists. split; [reflexivity|]. simpl.
    repeat split. rewrite <- app_assoc, uttered_app. simpl. apply app_nil_r.
  - eexists. split; [reflexivity|]. simpl.
    repeat split. rewrite uttered_app. simpl. apply app_nil_r.
  - eexists. split; [reflexivity|]. simpl.
    repeat split. rewrite uttered_app. simpl. apply app_nil_r.
Qed.

(** X4. After [session_confirm(t)], and whatever is handled next short of
    another [session_confirm] (a disconnect, for one), the handler of
    [connect] sends [session_request] with the token [t] itself, the empty
    string included, and nothing else. *)
Theorem reconnect_requests_confirmed_session
    (t : string) (acts : list Action) (w w1 : World) :
  Forall (fun a => is_session_confirm a = false) acts ->
  run uuidv4 sendOnConnect (OnSessionConfirm t :: acts) w = Ok tt w1 ->
  exists w2,
    handle uuidv4 sendOnConnect OnConnect w1 = Ok tt w2
    /\ trace w2 = trace w1 ++ [SetStatus RasaStatus.connected;
                               Emit (session_request (Some t))]
    /\ history w2 = history w1.
Proof.
  intros Hacts Hrun. rewrite run_cons in Hrun.
  destruct (handle_frame (OnSessionConfirm t) w) as (_ & _ & _ & _ & Hok).
  destruct (handle uuidv4 sendOnConnect (OnSessionConfirm t) w) as [[] w0|e t0];
    [|discriminate].
  destruct (Hok w0 eq_refl) as [_ Hse].
  destruct (run_frame acts Hacts w0) as (_ & _ & _ & Hok1).
  destruct (Hok1 w1 Hrun) as [_ Hse1].
  cbn [handle]. unfold on_connect. unfold_M. simpl.
  eexists. split; [reflexivity|]. simpl.
  rewrite Hse1, Hse, <- app_assoc. split; reflexivity.
Qed.

(** X5. Before any [session_confirm], the handler of [connect] sends
    [session_request] with no session at all, where [utter] sends the
    empty string. *)
Theorem first_connect_requests_no_session
    (rasaWebServerUrl rasaSocketPath : string) (acts : list Action)
    (w0 w : World) :
  mount rasaWebServerUrl rasaSocketPath initial_world = Ok tt w0 ->
  Forall (fun a => is_session_confirm a = false) acts ->
  run uuidv4 sendOnConnect acts w0 = Ok tt w ->
  exists w',
    handle uuidv4 sendOnConnect OnConnect w = Ok tt w'
    /\ emitted (trace w') = emitted (trace w) ++ [session_request None].
Proof.
  intros Hmount Hacts Hrun.
  destruct (run_frame acts Hacts w0) as (_ & _ & _ & Hok).
  destruct (Hok w Hrun) as [_ Hse].
  injection Hmount as <-. simpl in Hse.
  cbn [handle]. unfold on_connect. unfold_M. simpl.
  eexists. split; [reflexivity|]. simpl.
  unfold emitted. rewrite <- app_assoc, omap_app, Hse. reflexivity.
Qed.

(** X6. When [sendOnConnect] is absent or is the empty string, the
    handler of [session_confirm] stores the token and does nothing else:
    status, history and trace are untouched. *)
Theorem confirm_without_sendOnConnect (t : string) (w : World) :
  sendOnConnect = None \/ sendOnConnect = Some "" ->
  exists w',
    handle uuidv4 sendOnConnect (OnSessionConfirm t) w = Ok tt w'
    /\ sessionRef w' = Some t
    /\ status w' = status w
    /\ history w' = history w
    /\ trace w' = trace w.
Proof.
  intros Hs. cbn [handle]. unfold on_session_confirm. unfold_M.
  assert (truthy sendOnConnect = None) as -> by (destruct Hs as [-> | ->]; reflexivity).
  eexists. split; [reflexivity|]. repeat split.
Qed.

(** X7. After a run that ends normally the session reference is the
    token of the last [session_confirm] of the run, or what it was before
    when the run has none: no other action writes it. *)
Theorem session_is_last_confirm (acts : list Action) (w w' : World) :
  run uuidv4 sendOnConnect acts w = Ok tt w' ->
  sessionRef w' = last_confirm acts (sessionRef w).
Proof.
  revert w. induction acts as [|a rest IH]; intros w Hrun.
  - injection Hrun as <-. reflexivity.
  - rewrite run_cons in Hrun.
    destruct (handle_frame a w) as (_ & _ & _ & _ & Hok).
    destruct (handle uuidv4 sendOnConnect a w) as [[] w1|e t1]; [|discriminate].
    destruct (Hok w1 eq_refl) as [_ Hse]. rewrite (IH w1 Hrun), Hse.
    unfold last_confirm. simpl. destruct a; reflexivity.
Qed.

(** *** Clicks on a history the application may have edited *)

Lemma on_click_first
    (w : World) (pre post : list RasaMessage) (m : RasaMessage)
    (i : nat) (p : string) :
  history w = pre ++ m :: post ->
  Forall (fun v => id v <> id m) pre ->
  String.prefix "/" p = true ->
  exists w',
    on_click uuidv4
      {| captured_payload := p; captured_i1 := i; captured_id := id m |} w
      = Ok tt w'
    /\ history w' =
         pre ++ resolve i m :: post
           ++ [user_text (uuidv4 (uuid_calls w)) (UString p)]
    /\ uuid_calls w' = S (uuid_calls w).
Proof.
  intros Hh Hpre Hp.
  destruct (utter_ok (UString p) w) as (w1 & Hu & _ & Hh1 & _ & _ & Hn1 & _).
  rewrite (on_click_unfold _ w w1) by exact Hu. simpl. rewrite Hp.
  rewrite Hh, <- app_assoc in Hh1. simpl in Hh1.
  assert (list_find (fun v => id v = id m) (history w1) = Some (length pre, m))
    as Hf by (rewrite Hh1; apply list_find_split, Hpre).
  rewrite (setHistory_resolve_found _ _ _ _ _ Hf).
  eexists. split; [reflexivity|]. simpl. split; [|exact Hn1].
  rewrite Hh1, <- (Nat.add_0_r (length pre)), alter_app_r. reflexivity.
Qed.

Lemma imap_mark_mark (i1 j1 : nat) (l : list QuickReply) :
  imap (mark i1) (imap (mark j1) l) = imap (mark i1) l.
Proof.
  apply list_eq. intros k. rewrite !list_lookup_imap.
  destruct (l !! k); reflexivity.
Qed.

Lemma resolve_resolve (i1 j1 : nat) (m : RasaMessage) :
  resolve i1 (resolve j1 m) = resolve i1 m.
Proof.
  destruct m as [[a [[qs|]|] t c o] rid r ty];
    unfold resolve, set_clicked, set_quick_replies; simpl;
    rewrite ?imap_mark_mark; reflexivity.
Qed.

(** X9. A click whose payload does not start with ["/"] removes every
    message that has the identifier of the click, however many there are,
    and keeps the others in their order; the utterance is appended at the
    end and the click never throws. *)
Theorem click_removes_every_duplicate (w : World) (c : ClickClosure) :
  String.prefix "/" (captured_payload c) = false ->
  uuidv4 (uuid_calls w) <> captured_id c ->
  exists w',
    on_click uuidv4 c w = Ok tt w'
    /\ history w' =
         filter (fun r => id r <> captured_id c) (history w)
           ++ [user_text (uuidv4 (uuid_calls w)) (UString (captured_payload c))]
    /\ Forall (fun r => id r <> captured_id c) (history w').
Proof.
  intros Hp Hfresh.
  destruct (utter_ok (UString (captured_payload c)) w)
    as (w1 & Hu & _ & Hh1 & _ & _ & _ & _).
  rewrite (on_click_unfold _ w w1) by exact Hu. rewrite Hp.
  unfold setHistory, apply_updater. eexists. split; [reflexivity|]. simpl.
  rewrite Hh1, filter_app, filter_cons_True by exact Hfresh.
  split; [reflexivity|].
  apply Forall_app. split.
  - apply Forall_forall. intros x [Hx _]%list_elem_of_filter. exact Hx.
  - repeat constructor. exact Hfresh.
Qed.

(** X10. On a history without two messages of the same identifier, two
    clicks in a row on options [j] then [i] of the same group, both with
    payloads that start with ["/"], leave the group as a single click on
    [i] does: the last click wins. Both utterances are appended, in the
    order of the clicks, and the other messages are as they were. *)
Theorem last_command_click_wins
    (w : World) (pre post : list RasaMessage) (m : RasaMessage)
    (i j : nat) (p_i p_j : string) :
  history w = pre ++ m :: post ->
  NoDup (id <$> history w) ->
  String.prefix "/" p_j = true ->
  String.prefix "/" p_i = true ->
  exists w',
    run uuidv4 sendOnConnect
      [CallOnClick {| captured_payload := p_j; captured_i1 := j; captured_id := id m |};
       CallOnClick {| captured_payload := p_i; captured_i1 := i; captured_id := id m |}]
      w = Ok tt w'
    /\ history w' =
         pre ++ resolve i m :: post
           ++ [user_text (uuidv4 (uuid_calls w)) (UString p_j);
               user_text (uuidv4 (S (uuid_calls w))) (UString p_i)]
    /\ resolved_by_click i m (resolve i m).
Proof.
  intros Hh Hnd Hj Hi.
  rewrite Hh in Hnd. pose proof (NoDup_ids_before _ _ _ Hnd) as Hpre.
  destruct (on_click_first w pre post m j p_j Hh Hpre Hj) as (w1 & Hrun1 & Hh1 & Hn1).
  destruct (on_click_first w1 pre
              (post ++ [user_text (uuidv4 (uuid_calls w)) (UString p_j)])
              (resolve j m) i p_i Hh1 Hpre Hi) as (w2 & Hrun2 & Hh2 & _).
  change (id (resolve j m)) with (id m) in Hrun2.
  exists w2. split_and!.
  - rewrite run_cons. cbn [handle]. rewrite Hrun1.
    rewrite run_cons. cbn [handle]. rewrite Hrun2. reflexivity.
  - rewrite Hh2, resolve_resolve, Hn1, <- app_assoc. reflexivity.
  - apply resolve_resolved_by_click.
Qed.

(** X11. A click whose captured index is not an index of the current
    options of the message, which can only be after the application has
    edited the history, still marks the group clicked but leaves no option
    marked; the number of options is kept, and on a message without
    [quick_replies] the property is created, holding [undefined]. *)
Theorem click_out_of_range_marks_none
    (w : World) (pre post : list RasaMessage) (m : RasaMessage)
    (i : nat) (p : string) :
  history w = pre ++ m :: post ->
  Forall (fun v => id v <> id m) pre ->
  String.prefix "/" p = true ->
  length (options m) <= i ->
  exists w' m',
    on_click uuidv4
      {| captured_payload := p; captured_i1 := i; captured_id := id m |} w
      = Ok tt w'
    /\ lookup_id (id m) (history w') = Some m'
    /\ clicked m' = Some true
    /\ clicked_count m' = 0
    /\ length (options m') = length (options m)
    /\ hasOwnProperty (quick_replies m') = true
    /\ (quick_replies m = None -> quick_replies m' = Some None).
Proof.
  intros Hh Hpre Hp Hi.
  destruct (on_click_first w pre post m i p Hh Hpre Hp) as (w' & Hrun & Hh' & _).
  exists w', (resolve i m). split; [exact Hrun|]. split_and!.
  - rewrite Hh'.
    apply (findIndex_Some _ _ (length pre)).
    apply (list_find_split pre _ (resolve i m)). exact Hpre.
  - reflexivity.
  - unfold clicked_count. rewrite options_resolve.
    change (imap (mark i) (options m))
      with (imap (fun k => mark i (0 + k)) (options m)).
    rewrite (count_mark i (options m) 0). apply decide_False. lia.
  - apply length_options_resolve.
  - reflexivity.
  - unfold resolve. simpl. intros ->. reflexivity.
Qed.

(** *** Sequences of utterances *)

(** X12. [utter] does not deduplicate and never throws: calls in a row
    append one text entry each, in the order of the calls and with the
    successive identifiers, and send one [user_uttered] event each, with
    the current session, when the socket exists; without a socket the
    entries are appended all the same and nothing is sent. *)
Theorem utter_sequence (messages : list Utterance) (w : World) :
  exists w',
    run uuidv4 sendOnConnect (CallUtter <$> messages) w = Ok tt w'
    /\ history w' =
         history w
         ++ imap (fun k message => user_text (uuidv4 (uuid_calls w + k)) message)
                 messages
    /\ uttered (trace w') =
         uttered (trace w)
         ++ match socketRef w with
            | Some _ =>
                (fun message => {| session_id := Some (or_empty (sessionRef w));
                                   message := message |}) <$> messages
            | None => []
            end.
Proof.
  revert w. induction messages as [|x rest IH]; intros w.
  - exists w. split; [reflexivity|].
    split; [simpl; rewrite app_nil_r; reflexivity|].
    destruct (socketRef w); simpl; rewrite app_nil_r; reflexivity.
  - rewrite fmap_cons, run_cons. cbn [handle].
    destruct (utter_ok x w) as (w1 & Hu & _ & Hh1 & Hso1 & Hse1 & Hn1 & Ht1).
    rewrite Hu. destruct (IH w1) as (w' & Hrun & Hh' & Hut').
    exists w'. split; [exact Hrun|]. split.
    + rewrite Hh', Hh1, Hn1, imap_cons, <- app_assoc, Nat.add_0_r. simpl.
      do 2 f_equal. apply imap_ext. intros k y _. simpl.
      rewrite Nat.add_succ_r. reflexivity.
    + rewrite Hut', Ht1, Hso1, Hse1, !uttered_app, <- !app_assoc.
      destruct (socketRef w); simpl; rewrite ?app_nil_r; reflexivity.
Qed.

(** *** Invariants of the traces *)

Lemma user_entries_app (t1 t2 : list Effect) :
  user_entries (t1 ++ t2) = user_entries t1 ++ user_entries t2.
Proof. apply omap_app. Qed.


Lemma handle_entries (a : Action) (w : World) (sock : Socket) :
  socketRef w = Some sock ->
  exists new,
    trace_of (handle uuidv4 sendOnConnect a w) = trace w ++ new
    /\ message <$> uttered new = user_entries new.
Proof.
  intros Hsock.
  destruct a as [message|c|h| |sessionID|message|reason|e]; cbn [handle].
  - destruct (utter_ok message w) as (w1 & Hu & _ & _ & _ & _ & _ & Ht).
    rewrite Hu. simpl. rewrite Ht, Hsock. eexists. split; reflexivity.
  - destruct (utter_ok (UString (captured_payload c)) w)
      as (w1 & Hu & _ & _ & _ & _ & _ & Ht).
    rewrite (on_click_unfold _ w w1), on_click_setHistory by exact Hu.
    destruct (setHistory_frame
                (if String.prefix "/" (captured_payload c)
                 then ResolveClick (captured_id c) (captured_i1 c)
                 else RemoveById (captured_id c)) w1) as (Ht' & _).
    rewrite Ht', Ht, Hsock, <- !app_assoc. eexists. split; [reflexivity|].
    destruct (String.prefix "/" (captured_payload c)); reflexivity.
  - destruct (setHistory_frame (Replace h) w) as (Ht & _). rewrite Ht.
    eexists. split; reflexivity.
  - unfold on_connect. unfold_M. simpl. rewrite <- app_assoc.
    eexists. split; reflexivity.
  - unfold on_session_confirm. unfold_M.
    destruct (truthy sendOnConnect) as [m|].
    + destruct (utter_ok (UString m) (with_sessionRef (Some sessionID) w))
        as (w1 & Hu & _ & _ & _ & _ & _ & Ht).
      rewrite Hu. simpl in *. rewrite Ht, Hsock. eexists. split; reflexivity.
    + exists []. simpl. rewrite app_nil_r. split; reflexivity.
  - unfold on_bot_uttered, lift. unfold_M.
    destruct (getType message) as [e|kind]; simpl.
    + exists []. rewrite app_nil_r. split; reflexivity.
    + rewrite <- app_assoc. eexists. split; [reflexivity|].
      destruct (mjoin (quick_replies (spread message))); reflexivity.
  - eexists. split; reflexivity.
  - eexists. split; reflexivity.
Qed.

(** X15. On a mounted hook every [user_uttered] event sent has its text
    entry in the history updates and the reverse: over any run, throwing
    or not, the messages of the events sent are, in order, the texts of
    the entries appended for the user. *)
Theorem events_match_user_entries (acts : list Action) (w : World) (sock : Socket) :
  socketRef w = Some sock ->
  exists new,
    trace_of (run uuidv4 sendOnConnect acts w) = trace w ++ new
    /\ message <$> uttered new = user_entries new.
Proof.
  revert w. induction acts as [|a rest IH]; intros w Hsock.
  - exists []. simpl. rewrite app_nil_r. split; reflexivity.
  - rewrite run_cons.
    destruct (handle_entries a w sock Hsock) as (new1 & Ht1 & He1).
    destruct (handle_frame a w) as (_ & _ & _ & _ & Hok).
    destruct (handle uuidv4 sendOnConnect a w) as [[] w1|e t1]; simpl in *.
    + destruct (Hok w1 eq_refl) as [Hso1 _].
      destruct (IH w1) as (new2 & Ht2 & He2); [congruence|].
      exists (new1 ++ new2). rewrite Ht2, Ht1, <- app_assoc.
      split; [reflexivity|].
      rewrite uttered_app, user_entries_app, fmap_app, He1, He2. reflexivity.
    + exists new1. split; assumption.
Qed.



(** X17. With a [uuidv4] that never returns the same identifier twice,
    in every world the hook reaches from its mount without the
    application replacing the history: no two messages of the history
    have the same identifier, every identifier is one of those [uuidv4]
    has returned so far, and every quick reply carries the closure over
    its own payload, its own index and the identifier of its own
    message. *)
Theorem reachable_ids_unique
    (rasaWebServerUrl rasaSocketPath : string) (acts : list Action)
    (w0 w : World) :
  (forall j k, uuidv4 j = uuidv4 k -> j = k) ->
  mount rasaWebServerUrl rasaSocketPath initial_world = Ok tt w0 ->
  Forall (fun a => is_set_history a = false) acts ->
  run uuidv4 sendOnConnect acts w0 = Ok tt w ->
  NoDup (id <$> history w)
  /\ Forall wired (history w)
  /\ Forall (fun m => exists k, k < uuid_calls w /\ id m = uuidv4 k) (history w).
Proof.
  intros Hinj Hmount Hacts Hrun.
  destruct (run_inv Hinj acts Hacts w0 w) as (Hw & Hids & Hnd).
  - injection Hmount as <-. unfold hook_inv. simpl. split_and!; constructor.
  - exact Hrun.
  - split_and!; assumption.
Qed.

End Properties.


(** ** The sample values are worlds the hook reaches *)

Lemma mounted_world_reached :
  mount "http://localhost:3000" RASA_DEFAULT_SOCKET_PATH initial_world
  = Ok tt mounted_world.
Proof. reflexivity. Qed.

Lemma asked_world_reached (sendOnConnect : option string) :
  run sample_uuidv4 sendOnConnect [OnBotUttered (Some sample_bot_message)]
    mounted_world
  = Ok tt asked_world.
Proof. reflexivity. Qed.

Lemma answered_world_reached (sendOnConnect : option string) :
  run sample_uuidv4 sendOnConnect [CallOnClick (sample_click 0 "/yes")] asked_world
  = Ok tt answered_world.
Proof. vm_compute. reflexivity. Qed.

Lemma sample_uuidv4_length (n : nat) : String.length (sample_uuidv4 n) = S n.
Proof. induction n as [|n IH]; [reflexivity|]. cbn [sample_uuidv4 String.length]. rewrite IH. reflexivity. Qed.

Lemma sample_uuidv4_inj (j k : nat) : sample_uuidv4 j = sample_uuidv4 k -> j = k.
Proof.
  intros Heq. apply (f_equal String.length) in Heq.
  rewrite !sample_uuidv4_length in Heq. lia.
Qed.

Lemma sample_uuidv4_fresh (k : nat) : 1 <= k -> sample_uuidv4 k <> "u".
Proof.
  intros Hk Heq. apply (f_equal String.length) in Heq.
  rewrite sample_uuidv4_length in Heq. simpl in Heq. lia.
Qed.

Lemma sample_group_wired : wired sample_group.
Proof.
  intros i q Hq. destruct i as [|[|[|i]]]; simpl in Hq;
    try discriminate; injection Hq as <-; reflexivity.
Qed.

Lemma resolved_sample_group_wired : wired (resolve 0 sample_group).
Proof.
  intros i q Hq. destruct i as [|[|[|i]]]; simpl in Hq;
    try discriminate; injection Hq as <-; reflexivity.
Qed.

(** ** The theorems at the sample values *)

Lemma click_keeps_command_or_removes_witness :
  exists (w' : World) (said : RasaMessage),
    on_click sample_uuidv4 (sample_click 0 "/yes") asked_world = Ok tt w'
    /\ history w' = [resolve 0 sample_group; said]
    /\ text_entry "uu" (UString "/yes") said.
Proof.
  destruct (click_keeps_command_or_removes sample_uuidv4 asked_world [] []
              sample_group 0 (wire "u" 0 (sample_option "/yes"))
              (sample_click 0 "/yes"))
    as (w' & said & Hrun & Hsaid & m' & Hh & -> & _).
  - reflexivity.
  - apply (bool_decide_unpack _). vm_compute. reflexivity.
  - vm_compute. discriminate.
  - exact sample_group_wired.
  - reflexivity.
  - reflexivity.
  - exists w', said. split_and!; [exact Hrun|exact Hh|exact Hsaid].
Defined.


Lemma clicks_leave_one_option_clicked_witness :
  clicked (resolve 1 sample_group) = Some true
  /\ clicked_count (resolve 1 sample_group) = 1.
Proof.
  eapply (clicks_leave_one_option_clicked sample_uuidv4 None asked_world _
            sample_group (resolve 1 sample_group)
            [sample_click 0 "/yes"; sample_click 1 "/no"]).
  - vm_compute. reflexivity.
  - exact sample_group_wired.
  - intros k Hk. apply sample_uuidv4_fresh. exact Hk.
  - repeat constructor.
    + exists 0, (wire "u" 0 (sample_option "/yes")). split; reflexivity.
    + exists 1, (wire "u" 1 (sample_option "/no")). split; reflexivity.
  - discriminate.
  - vm_compute. reflexivity.
  - vm_compute. reflexivity.
Defined.


Lemma second_click_resolves_again_witness :
  exists (w' : World) (said m' : RasaMessage),
    on_click sample_uuidv4 (sample_click 1 "/no") answered_world = Ok tt w'
    /\ text_entry "uuu" (UString "/no") said
    /\ history w' = [m'; user_text "uu" (UString "/yes"); said]
    /\ resolved_by_click 1 (resolve 0 sample_group) m'
    /\ uttered (trace w')
       = uttered (trace answered_world)
         ++ [{| session_id := Some ""; message := UString "/no" |}].
Proof.
  destruct (second_click_resolves_again sample_uuidv4 answered_world []
              [user_text "uu" (UString "/yes")] (resolve 0 sample_group) 1
              (mark 0 1 (wire "u" 1 (sample_option "/no")))
              (sample_click 1 "/no") sample_socket)
    as (w' & said & Hrun & Hsaid & Hne & Hut & m' & Hh & _ & Hres & _).
  - reflexivity.
  - apply (bool_decide_unpack _). vm_compute. reflexivity.
  - vm_compute. discriminate.
  - exact resolved_sample_group_wired.
  - split; reflexivity.
  - reflexivity.
  - reflexivity.
  - reflexivity.
  - exists w', said, m'.
    split_and!; [exact Hrun|exact Hsaid|exact Hh|exact Hres|exact Hut].
Defined.

Lemma session_token_sent_verbatim_witness :
  exists new,
    trace_of (run sample_uuidv4 (Some "/greet")
                [OnSessionConfirm "abc"; CallUtter (UString "hello");
                 CallOnClick (sample_click 0 "/yes")]
                asked_world)
      = trace asked_world ++ new
    /\ Forall (fun u => session_id u = Some "abc") (uttered new).
Proof.
  apply (session_token_sent_verbatim sample_uuidv4 (Some "/greet") "abc"
           [CallUtter (UString "hello"); CallOnClick (sample_click 0 "/yes")]
           asked_world).
  repeat constructor.
Defined.

Lemma sendOnConnect_sent_on_confirm_witness :
  exists w1 w2,
    run sample_uuidv4 (Some "/greet") [OnConnect] mounted_world = Ok tt w1
    /\ uttered (trace w1) = uttered (trace mounted_world)
    /\ handle sample_uuidv4 (Some "/greet") (OnSessionConfirm "abc") w1 = Ok tt w2
    /\ sessionRef w2 = Some "abc"
    /\ trace w2 =
         trace w1
         ++ [Emit (user_uttered {| session_id := Some "abc"; message := UString "/greet" |});
             SetStatus RasaStatus.waitingForResponse;
             SetHistory (Append (user_text (sample_uuidv4 (uuid_calls w1)) (UString "/greet")))]
    /\ history w2 = history w1 ++ [user_text (sample_uuidv4 (uuid_calls w1)) (UString "/greet")].
Proof.
  destruct (sendOnConnect_sent_on_confirm sample_uuidv4 (Some "/greet") "/greet"
              "abc" sample_socket [OnConnect] mounted_world)
    as (_ & _ & Hok).
  - reflexivity.
  - discriminate.
  - reflexivity.
  - repeat constructor.
  - eexists. edestruct Hok as (w2 & Hu & Hrun & Hse & Ht & Hh).
    + vm_compute. reflexivity.
    + exists w2.
      split_and!; [vm_compute; reflexivity|exact Hu|exact Hrun|exact Hse|exact Ht|exact Hh].
Defined.

Lemma utter_before_confirm_sends_empty_session_witness :
  exists w',
    utter sample_uuidv4 (UString "hello") asked_world = Ok tt w'
    /\ uttered (trace w')
       = uttered (trace asked_world)
         ++ [{| session_id := Some ""; message := UString "hello" |}].
Proof.
  apply (utter_before_confirm_sends_empty_session sample_uuidv4 (Some "/greet")
           "http://localhost:3000" RASA_DEFAULT_SOCKET_PATH
           [OnBotUttered (Some sample_bot_message)] (UString "hello")
           mounted_world asked_world).
  - reflexivity.
  - repeat constructor.
  - reflexivity.
Defined.

(** ** Where the code departs from the specification *)


(** C3, as the specification states it: the append would come before the
    emission. In the trace of [utter("hello")] it does not. *)
Lemma utter_append_before_emit_counterexample :
  ~ (exists w',
        utter sample_uuidv4 (UString "hello") mounted_world = Ok tt w'
        /\ happens_before is_append is_user_uttered (trace w') = true).
Proof.
  intros (w' & Hrun & Hb). vm_compute in Hrun. injection Hrun as <-.
  vm_compute in Hb. discriminate.
Qed.


(** C6, as the specification states it: a second click on a resolved group
    would change nothing. After the click on ["/yes"], a click on ["/no"]
    sends an event that was not sent before, lengthens the history and
    moves the mark from the first option to the second. *)
Lemma second_click_counterexample :
  lookup_id "u" (history answered_world) = Some (resolve 0 sample_group)
  /\ resolved (resolve 0 sample_group)
  /\ closure_of (resolve 0 sample_group) (sample_click 1 "/no")
  /\ exists w' m',
       on_click sample_uuidv4 (sample_click 1 "/no") answered_world = Ok tt w'
       /\ length (history w') = S (length (history answered_world))
       /\ lookup_id "u" (history w') = Some m'
       /\ is_clicked <$> options m' = [false; true; false]
       /\ is_clicked <$> options (resolve 0 sample_group) = [true; false; false]
       /\ user_uttered {| session_id := Some ""; message := UString "/no" |}
            ∈ emitted (trace w')
       /\ user_uttered {| session_id := Some ""; message := UString "/no" |}
            ∉ emitted (trace answered_world).
Proof.
  split_and!.
  - reflexivity.
  - split; reflexivity.
  - exists 1, (mark 0 1 (wire "u" 1 (sample_option "/no"))). split; reflexivity.
  - eexists _, _. split_and!.
    + vm_compute. reflexivity.
    + reflexivity.
    + vm_compute. reflexivity.
    + reflexivity.
    + reflexivity.
    + simpl. repeat first [left | right].
    + simpl. intros H. repeat (apply elem_of_cons in H as [H|H]; [discriminate|]).
      inversion H.
Qed.

(** ** The further theorems at the sample values *)

Lemma bot_uttered_appends_witness :
  handle sample_uuidv4 None (OnBotUttered None) asked_world
  = Throw TypeError (trace asked_world)
  /\ exists response : RasaMessage,
       history asked_world = history mounted_world ++ [response]
       /\ getType (Some sample_bot_message) = inr (type response)
       /\ received response = true.
Proof.
  split.
  - apply (proj1 (bot_uttered_appends sample_uuidv4 None None asked_world)).
    reflexivity.
  - destruct (proj2 (bot_uttered_appends sample_uuidv4 None
                       (Some sample_bot_message) mounted_world)
                asked_world eq_refl)
      as (p & response & _ & Hty & Hh & _ & Hrec & _).
    exists response. split_and!; assumption.
Defined.


Lemma lifecycle_keeps_conversation_witness :
  exists w',
    handle sample_uuidv4 None (OnError "transport error") answered_world = Ok tt w'
    /\ status w' = RasaStatus.error
    /\ history w' = history answered_world
    /\ sessionRef w' = sessionRef answered_world
    /\ socketRef w' = socketRef answered_world
    /\ uttered (trace w') = uttered (trace answered_world).
Proof.
  apply (lifecycle_keeps_conversation sample_uuidv4 None
           (OnError "transport error") answered_world).
  reflexivity.
Defined.

Lemma reconnect_requests_confirmed_session_witness :
  exists w1 w2,
    run sample_uuidv4 None
      [OnSessionConfirm "abc"; OnDisconnect "transport close"] mounted_world
      = Ok tt w1
    /\ handle sample_uuidv4 None OnConnect w1 = Ok tt w2
    /\ trace w2 = trace w1 ++ [SetStatus RasaStatus.connected;
                               Emit (session_request (Some "abc"))].
Proof.
  eexists.
  edestruct (reconnect_requests_confirmed_session sample_uuidv4 None "abc"
               [OnDisconnect "transport close"] mounted_world)
    as (w2 & Hrun & Ht & _).
  - repeat constructor.
  - vm_compute. reflexivity.
  - exists w2. split_and!; [vm_compute; reflexivity|exact Hrun|exact Ht].
Defined.

Lemma first_connect_requests_no_session_witness :
  exists w',
    handle sample_uuidv4 None OnConnect mounted_world = Ok tt w'
    /\ emitted (trace w') = emitted (trace mounted_world) ++ [session_request None].
Proof.
  apply (first_connect_requests_no_session sample_uuidv4 None
           "http://localhost:3000" RASA_DEFAULT_SOCKET_PATH []
           mounted_world mounted_world).
  - reflexivity.
  - constructor.
  - reflexivity.
Defined.

Lemma confirm_without_sendOnConnect_witness :
  exists w',
    handle sample_uuidv4 (Some "") (OnSessionConfirm "abc") asked_world = Ok tt w'
    /\ sessionRef w' = Some "abc"
    /\ status w' = status asked_world
    /\ history w' = history asked_world
    /\ trace w' = trace asked_world.
Proof.
  apply (confirm_without_sendOnConnect sample_uuidv4 (Some "") "abc" asked_world).
  right. reflexivity.
Defined.

Lemma session_is_last_confirm_witness :
  exists w',
    run sample_uuidv4 None
      [OnSessionConfirm "abc"; CallUtter (UString "hello");
       OnSessionConfirm "xyz"; OnDisconnect "transport close"]
      mounted_world = Ok tt w'
    /\ sessionRef w' = Some "xyz".
Proof.
  eexists. split; [vm_compute; reflexivity|].
  apply (session_is_last_confirm sample_uuidv4 None
           [OnSessionConfirm "abc"; CallUtter (UString "hello");
            OnSessionConfirm "xyz"; OnDisconnect "transport close"]
           mounted_world).
  reflexivity.
Defined.

Lemma click_removes_every_duplicate_witness :
  exists w',
    on_click sample_uuidv4 (sample_click 2 "no thanks")
      (with_history [sample_group; user_text "x" (UString "hi"); sample_group]
         asked_world) = Ok tt w'
    /\ history w' =
         [user_text "x" (UString "hi"); user_text "uu" (UString "no thanks")].
Proof.
  destruct (click_removes_every_duplicate sample_uuidv4
              (with_history [sample_group; user_text "x" (UString "hi"); sample_group]
                 asked_world)
              (sample_click 2 "no thanks"))
    as (w' & Hrun & Hh & _).
  - reflexivity.
  - vm_compute. discriminate.
  - exists w'. split; [exact Hrun|]. rewrite Hh. vm_compute. reflexivity.
Defined.

Lemma last_command_click_wins_witness :
  exists w',
    run sample_uuidv4 None
      [CallOnClick (sample_click 0 "/yes"); CallOnClick (sample_click 1 "/no")]
      asked_world = Ok tt w'
    /\ history w' =
         [resolve 1 sample_group; user_text "uu" (UString "/yes");
          user_text "uuu" (UString "/no")].
Proof.
  destruct (last_command_click_wins sample_uuidv4 None asked_world [] []
              sample_group 1 0 "/no" "/yes")
    as (w' & Hrun & Hh & _).
  - reflexivity.
  - apply (bool_decide_unpack _). vm_compute. reflexivity.
  - reflexivity.
  - reflexivity.
  - exists w'. split; [exact Hrun|exact Hh].
Defined.

Lemma click_out_of_range_marks_none_witness :
  exists w' m',
    on_click sample_uuidv4 (sample_click 7 "/yes") asked_world = Ok tt w'
    /\ lookup_id "u" (history w') = Some m'
    /\ clicked m' = Some true
    /\ clicked_count m' = 0
    /\ length (options m') = 3
    /\ hasOwnProperty (quick_replies m') = true.
Proof.
  destruct (click_out_of_range_marks_none sample_uuidv4 asked_world [] []
              sample_group 7 "/yes")
    as (w' & m' & Hrun & Hl & Hc & Hn & Hlen & Hown & _).
  - reflexivity.
  - constructor.
  - reflexivity.
  - simpl. lia.
  - exists w', m'. split_and!; assumption.
Defined.

Lemma events_match_user_entries_witness :
  exists new,
    trace_of (run sample_uuidv4 (Some "/greet")
                [OnSessionConfirm "abc"; OnBotUttered (Some sample_bot_message);
                 CallOnClick (sample_click 0 "/yes"); CallSetHistory [];
                 CallOnClick (sample_click 1 "/no")]
                mounted_world)
      = trace mounted_world ++ new
    /\ message <$> uttered new = user_entries new.
Proof.
  apply (events_match_user_entries sample_uuidv4 (Some "/greet") _ mounted_world
           sample_socket).
  reflexivity.
Defined.


Lemma reachable_ids_unique_witness :
  exists w,
    run sample_uuidv4 (Some "/greet")
      [OnSessionConfirm "abc"; OnBotUttered (Some sample_bot_message);
       CallOnClick (sample_click 0 "/yes")]
      mounted_world = Ok tt w
    /\ NoDup (id <$> history w)
    /\ Forall wired (history w)
    /\ Forall (fun m => exists k, k < uuid_calls w /\ id m = sample_uuidv4 k)
         (history w).
Proof.
  eexists. split; [vm_compute; reflexivity|].
  apply (reachable_ids_unique sample_uuidv4 (Some "/greet")
           "http://localhost:3000" RASA_DEFAULT_SOCKET_PATH
           [OnSessionConfirm "abc"; OnBotUttered (Some sample_bot_message);
            CallOnClick (sample_click 0 "/yes")]
           mounted_world).
  - exact sample_uuidv4_inj.
  - reflexivity.
  - repeat constructor.
  - reflexivity.
Defined.
